(** * DentBook: a shallow embedding of [main.py]

    The scheduling backend keeps all of its state in seven SQLite tables
    and every endpoint is a short sequence of SQL statements.  The tables
    with a generated [id] key are embedded as lists of rows in storage
    (rowid) order, which is the order a table scan returns them in and the
    order that breaks ties of [ORDER BY rank].  The three tables whose
    columns are exactly their primary key ([matches], [blocked_days],
    [global_blocks]) are relations without duplicates and are embedded as
    finite sets.

    Endpoints are computations in a state-and-exception monad over the
    database.  The two sources of non-determinism of the program,
    [uuid4()] and [random.randint], are passed to the endpoints as
    arguments.  Python integers are unbounded, so ranks are in [Z]. *)

From stdpp Require Import base decidable option list sorting strings gmap.
From Stdlib Require Import ZArith Ascii String.

Set Warnings "-clear-no-such-hyp".

Local Open Scope string_scope.
Local Open Scope list_scope.
Local Open Scope Z_scope.

(** ** Pydantic models *)

Module Doctor.
Record t := mk {
  id : option string;
  student_id : string;
  username : string;
  password : string;
  color : string;
  matches : list string;
  phone : option string;
  country_code : option string }.

Definition set_id (v : option string) (d : t) : t :=
  mk v (student_id d) (username d) (password d) (color d) (matches d)
     (phone d) (country_code d).

Definition set_color (v : string) (d : t) : t :=
  mk (id d) (student_id d) (username d) (password d) v (matches d)
     (phone d) (country_code d).
End Doctor.

Module LoginRequest.
Record t := mk { student_id : string; password : string }.
End LoginRequest.

Module MatchRequest.
Record t := mk {
  id : option string;
  from_id : string;
  from_name : string;
  to_student_id : string }.

Definition set_id (v : option string) (q : t) : t :=
  mk v (from_id q) (from_name q) (to_student_id q).
End MatchRequest.

Module Patient.
Record t := mk {
  id : option string;
  doctor_id : string;
  name : string;
  r4 : option string }.

Definition set_id (v : option string) (p : t) : t :=
  mk v (doctor_id p) (name p) (r4 p).
End Patient.

Module Appointment.
Record t := mk {
  id : option string;
  doctor_id : string;
  day : string;
  session : string;
  patient_name : string;
  patient_r4 : string;
  duration : string;
  type : string;
  other_type_details : option string;
  rank : Z }.

Definition set_id (v : option string) (a : t) : t :=
  mk v (doctor_id a) (day a) (session a) (patient_name a) (patient_r4 a)
     (duration a) (type a) (other_type_details a) (rank a).
End Appointment.

Module BlockedDay.
Record t := mk { doctor_id : string; day : string }.
End BlockedDay.

Module ReorderRequest.
Record t := mk { ids : list string }.
End ReorderRequest.

Module MoveRequest.
Record t := mk { day : string; session : string }.
End MoveRequest.

Module GlobalBlock.
Record t := mk { doctor_id : string; day_of_week : string; session : string }.
End GlobalBlock.

(** ** Table rows *)

(** [doctors (id PRIMARY KEY, student_id UNIQUE, username, password, color,
    phone, country_code)]. *)
Module DoctorRow.
Record t := mk {
  id : string;
  student_id : string;
  username : string;
  password : string;
  color : string;
  phone : option string;
  country_code : option string }.
End DoctorRow.

(** [match_requests (id PRIMARY KEY, from_id, from_name, to_student_id)]. *)
Module MatchRequestRow.
Record t := mk {
  id : string;
  from_id : string;
  from_name : string;
  to_student_id : string }.
End MatchRequestRow.

(** [patients (id PRIMARY KEY, doctor_id, name, r4)]; [r4] is nullable. *)
Module PatientRow.
Record t := mk {
  id : string;
  doctor_id : string;
  name : string;
  r4 : option string }.
End PatientRow.

(** [appointments (id PRIMARY KEY, doctor_id, day, session, patient_name,
    patient_r4, duration, type, other_type_details, rank)]. *)
Module AppointmentRow.
Record t := mk {
  id : string;
  doctor_id : string;
  day : string;
  session : string;
  patient_name : string;
  patient_r4 : string;
  duration : string;
  type : string;
  other_type_details : option string;
  rank : Z }.

Definition set_rank (index : Z) (r : t) : t :=
  mk (id r) (doctor_id r) (day r) (session r) (patient_name r)
     (patient_r4 r) (duration r) (type r) (other_type_details r) index.

Definition set_day_session (d s : string) (r : t) : t :=
  mk (id r) (doctor_id r) d s (patient_name r)
     (patient_r4 r) (duration r) (type r) (other_type_details r) (rank r).
End AppointmentRow.

(** ** The database *)

Record Database := mkDatabase {
  doctors : list DoctorRow.t;
  matches : gset (string * string);             (* (doctor_id, target_id) *)
  match_requests : list MatchRequestRow.t;
  patients : list PatientRow.t;
  appointments : list AppointmentRow.t;
  blocked_days : gset (string * string);        (* (doctor_id, day) *)
  global_blocks : gset (string * string * string) (* (doctor_id, day_of_week, session) *)
}.

Definition init_db : Database := mkDatabase [] ∅ [] [] [] ∅ ∅.

Definition with_doctors (v : list DoctorRow.t) (db : Database) : Database :=
  mkDatabase v (matches db) (match_requests db) (patients db)
             (appointments db) (blocked_days db) (global_blocks db).
Definition with_matches (v : gset (string * string)) (db : Database) : Database :=
  mkDatabase (doctors db) v (match_requests db) (patients db)
             (appointments db) (blocked_days db) (global_blocks db).
Definition with_match_requests (v : list MatchRequestRow.t) (db : Database) : Database :=
  mkDatabase (doctors db) (matches db) v (patients db)
             (appointments db) (blocked_days db) (global_blocks db).
Definition with_patients (v : list PatientRow.t) (db : Database) : Database :=
  mkDatabase (doctors db) (matches db) (match_requests db) v
             (appointments db) (blocked_days db) (global_blocks db).
Definition with_appointments (v : list AppointmentRow.t) (db : Database) : Database :=
  mkDatabase (doctors db) (matches db) (match_requests db) (patients db)
             v (blocked_days db) (global_blocks db).
Definition with_blocked_days (v : gset (string * string)) (db : Database) : Database :=
  mkDatabase (doctors db) (matches db) (match_requests db) (patients db)
             (appointments db) v (global_blocks db).
Definition with_global_blocks (v : gset (string * string * string)) (db : Database) : Database :=
  mkDatabase (doctors db) (matches db) (match_requests db) (patients db)
             (appointments db) (blocked_days db) v.

(** ** Exceptions and the endpoint monad *)

(** [HTTPException(status_code, detail)] is what the endpoints raise
    themselves; [IntegrityError] is what [sqlite3] raises when an [INSERT]
    violates a [PRIMARY KEY] or [UNIQUE] constraint. *)
Inductive exn :=
| HTTPException (status_code : Z) (detail : option string)
| IntegrityError.

Inductive result (A : Type) :=
| Ok (a : A)
| Raise (e : exn).
Arguments Ok {A} a.
Arguments Raise {A} e.

Definition M (A : Type) : Type := Database → result A * Database.

#[export] Instance M_ret : MRet M := λ A a db, (Ok a, db).
#[export] Instance M_bind : MBind M := λ A B f m db,
  match m db with
  | (Ok a, db') => f a db'
  | (Raise e, db') => (Raise e, db')
  end.

Definition raise {A} (e : exn) : M A := λ db, (Raise e, db).
Definition query {A} (q : Database → A) : M A := λ db, (Ok (q db), db).
Definition execute (u : Database → Database) : M unit := λ db, (Ok tt, u db).


(** [with sqlite3.connect(DB_FILE) as conn: ...]: the connection's context
    manager commits when the block ends normally and rolls back when an
    exception leaves it. *)
Definition connect {A} (block : M A) : M A := λ db,
  match block db with
  | (Ok a, db') => (Ok a, db')
  | (Raise e, _) => (Raise e, db)
  end.

(** ** Library functions used by the endpoints *)

(** [s.split(sep)] for a one-character separator: the pieces between the
    separators, scanning left to right; [cur] is the piece being read. *)
Fixpoint split_from (sep : ascii) (cur : string) (s : string) : list string :=
  match s with
  | EmptyString => [cur]
  | String c s' =>
      if decide (c = sep) then cur :: split_from sep "" s'
      else split_from sep (cur +:+ String c "") s'
  end.

Definition split (sep : ascii) (s : string) : list string := split_from sep "" s.

(** [x or ""] on an optional string: [None] and the empty string are falsy. *)
Definition or_empty (x : option string) : string :=
  match x with
  | Some (String c s) => String c s
  | Some EmptyString => ""
  | None => ""
  end.

Definition hex_digit (d : N) : ascii :=
  match d with
  | 0 => "0" | 1 => "1" | 2 => "2" | 3 => "3" | 4 => "4" | 5 => "5"
  | 6 => "6" | 7 => "7" | 8 => "8" | 9 => "9" | 10 => "a" | 11 => "b"
  | 12 => "c" | 13 => "d" | 14 => "e" | _ => "f"
  end%N%char.

(** The lowercase hexadecimal digits of [n], most significant first. *)
Fixpoint hex_digits (fuel : nat) (n : N) (acc : string) : string :=
  match fuel with
  | O => acc
  | S fuel' =>
      let acc' := String (hex_digit (n mod 16)) acc in
      if (n / 16 =? 0)%N then acc' else hex_digits fuel' (n / 16)%N acc'
  end.

Fixpoint zeros (k : nat) : string :=
  match k with O => "" | S k' => String "0" (zeros k') end.

(** ["{:06x}".format(n)] for [n >= 0]: hexadecimal, padded with zeros on
    the left to at least six characters. *)
Definition format_06x (n : N) : string :=
  let digits := hex_digits (S (N.to_nat (N.log2 n))) n "" in
  zeros (6 - String.length digits) +:+ digits.

(** [get_random_color()], given the value drawn by
    [random.randint(0, 0xFFFFFF)]. *)
Definition get_random_color (randint : N) : string :=
  "#" +:+ format_06x randint.

(** ** SQL statements *)

(** [ORDER BY rank ASC]: a stable insertion of each row, so rows of equal
    rank stay in storage order. *)
Fixpoint insert_by_rank (r : AppointmentRow.t) (l : list AppointmentRow.t)
  : list AppointmentRow.t :=
  match l with
  | [] => [r]
  | h :: t =>
      if decide (AppointmentRow.rank r ≤ AppointmentRow.rank h)%Z then r :: h :: t
      else h :: insert_by_rank r t
  end.

Definition order_by_rank (l : list AppointmentRow.t) : list AppointmentRow.t :=
  foldr insert_by_rank [] l.

(** [SELECT ... FROM doctors WHERE id IN (...)] is answered through the
    index of the primary key, one listed id after the other in ascending
    order, so the selected rows come out in ascending order of [id]
    (bytewise, as the [BINARY] collation compares), not in storage
    order. *)
Fixpoint insert_by_id (r : DoctorRow.t) (l : list DoctorRow.t) : list DoctorRow.t :=
  match l with
  | [] => [r]
  | h :: t =>
      if String.leb (DoctorRow.id r) (DoctorRow.id h) then r :: h :: t
      else h :: insert_by_id r t
  end.

Definition order_by_id (l : list DoctorRow.t) : list DoctorRow.t :=
  foldr insert_by_id [] l.

(** [SELECT MAX(rank)] over the selected rows: [None] (SQL NULL) when there
    is no row. *)
Definition max_rank (rows : list AppointmentRow.t) : option Z :=
  foldr (λ r acc, Some (match acc with
                        | None => AppointmentRow.rank r
                        | Some m => Z.max (AppointmentRow.rank r) m
                        end)) None rows.

Definition in_bucket (doctor_id day session : string) (r : AppointmentRow.t) : Prop :=
  AppointmentRow.doctor_id r = doctor_id ∧
  AppointmentRow.day r = day ∧
  AppointmentRow.session r = session.

#[export] Instance in_bucket_dec d y s r : Decision (in_bucket d y s r).
Proof. unfold in_bucket. apply _. Defined.

(** [INSERT INTO doctors]: [id] is the primary key and [student_id] is
    [UNIQUE]. *)
Definition insert_doctors (row : DoctorRow.t) : M unit := λ db,
  if decide (Exists (λ r, DoctorRow.id r = DoctorRow.id row ∨
                          DoctorRow.student_id r = DoctorRow.student_id row)
                    (doctors db))
  then (Raise IntegrityError, db)
  else (Ok tt, with_doctors (doctors db ++ [row]) db).

Definition insert_match_requests (row : MatchRequestRow.t) : M unit := λ db,
  if decide (Exists (λ r, MatchRequestRow.id r = MatchRequestRow.id row)
                    (match_requests db))
  then (Raise IntegrityError, db)
  else (Ok tt, with_match_requests (match_requests db ++ [row]) db).

Definition insert_patients (row : PatientRow.t) : M unit := λ db,
  if decide (Exists (λ r, PatientRow.id r = PatientRow.id row) (patients db))
  then (Raise IntegrityError, db)
  else (Ok tt, with_patients (patients db ++ [row]) db).

Definition insert_appointments (row : AppointmentRow.t) : M unit := λ db,
  if decide (Exists (λ r, AppointmentRow.id r = AppointmentRow.id row)
                    (appointments db))
  then (Raise IntegrityError, db)
  else (Ok tt, with_appointments (appointments db ++ [row]) db).

(** [INSERT OR IGNORE INTO matches]. *)
Definition insert_or_ignore_matches (row : string * string) : M unit := λ db,
  if decide (row ∈ matches db) then (Ok tt, db)
  else (Ok tt, with_matches (matches db ∪ {[ row ]}) db).

Definition insert_blocked_days (row : string * string) : M unit := λ db,
  if decide (row ∈ blocked_days db) then (Raise IntegrityError, db)
  else (Ok tt, with_blocked_days (blocked_days db ∪ {[ row ]}) db).

Definition insert_global_blocks (row : string * string * string) : M unit := λ db,
  if decide (row ∈ global_blocks db) then (Raise IntegrityError, db)
  else (Ok tt, with_global_blocks (global_blocks db ∪ {[ row ]}) db).

(** [SELECT target_id FROM matches WHERE doctor_id = ?]. *)
Definition get_matches_list (doctor_id : string) : M (list string) :=
  query (λ db, (filter (λ row, row.1 = doctor_id) (elements (matches db))).*2).

(** ** Endpoints *)

(** The value of an attribute declared [str = None] once it has been
    assigned. *)
Definition assigned (x : option string) : string := default "" x.

(** *** Auth and users *)

(** [POST /register] *)
Definition register (uuid4 : string) (randint : N) (doctor : Doctor.t) : M Doctor.t :=
  connect (
    existing ← query (λ db,
      head (filter (λ r, DoctorRow.student_id r = Doctor.student_id doctor) (doctors db)));
    match existing with
    | Some _ => raise (HTTPException 400 (Some "Student ID already exists"))
    | None =>
        let doctor := Doctor.set_id (Some uuid4) doctor in
        let doctor := Doctor.set_color (get_random_color randint) doctor in
        insert_doctors
          (DoctorRow.mk (assigned (Doctor.id doctor)) (Doctor.student_id doctor)
             (Doctor.username doctor) (Doctor.password doctor) (Doctor.color doctor)
             (Doctor.phone doctor) (Doctor.country_code doctor));;
        mret doctor
    end).

(** [POST /login]: the row as a dictionary with the key ['matches'] added. *)
Definition login (creds : LoginRequest.t) : M (DoctorRow.t * list string) :=
  connect (
    row ← query (λ db,
      head (filter (λ r, DoctorRow.student_id r = LoginRequest.student_id creds ∧
                         DoctorRow.password r = LoginRequest.password creds)
                   (doctors db)));
    match row with
    | None => raise (HTTPException 401 (Some "Invalid credentials"))
    | Some doc =>
        matches ← get_matches_list (DoctorRow.id doc);
        mret (doc, matches)
    end).

(** [GET /doctors/me] *)
Definition get_me (id : string) : M (DoctorRow.t * list string) :=
  connect (
    row ← query (λ db, head (filter (λ r, DoctorRow.id r = id) (doctors db)));
    match row with
    | None => raise (HTTPException 404 (Some "Doctor not found"))
    | Some doc =>
        matches ← get_matches_list id;
        mret (doc, matches)
    end).

(** [GET /doctors/batch] *)
Definition get_doctors_batch (ids : string) : M (list DoctorRow.t) :=
  let id_list := split "," ids in
  match id_list with
  | [] => mret []
  | _ =>
      connect (query (λ db,
        order_by_id (filter (λ r, DoctorRow.id r ∈ id_list) (doctors db))))
  end.

(** [PUT /doctors/{doctor_id}/color] *)
Definition update_color (doctor_id : string) (color : string) : M string :=
  connect (execute (λ db,
    with_doctors
      ((λ r, if decide (DoctorRow.id r = doctor_id)
             then DoctorRow.mk (DoctorRow.id r) (DoctorRow.student_id r)
                    (DoctorRow.username r) (DoctorRow.password r) color
                    (DoctorRow.phone r) (DoctorRow.country_code r)
             else r) <$> doctors db) db));;
  mret "updated".

(** *** Matching *)

(** [POST /match-request] *)
Definition send_match_request (uuid4 : string) (req : MatchRequest.t) : M string :=
  connect (
    target ← query (λ db,
      head (filter (λ r, DoctorRow.student_id r = MatchRequest.to_student_id req)
                   (doctors db)));
    match target with
    | None => raise (HTTPException 404 (Some "Student ID not found"))
    | Some target =>
        if decide (DoctorRow.id target = MatchRequest.from_id req)
        then raise (HTTPException 400 (Some "Cannot match with self"))
        else
          let req := MatchRequest.set_id (Some uuid4) req in
          insert_match_requests
            (MatchRequestRow.mk (assigned (MatchRequest.id req)) (MatchRequest.from_id req)
               (MatchRequest.from_name req) (MatchRequest.to_student_id req));;
          mret "Request sent"
    end).

(** [GET /match-requests] *)
Definition get_match_requests (to_student_id : string) : M (list MatchRequestRow.t) :=
  connect (query (λ db,
    filter (λ r, MatchRequestRow.to_student_id r = to_student_id) (match_requests db))).

(** [POST /match-accept/{req_id}] *)
Definition accept_match (req_id : string) : M string :=
  connect (
    req ← query (λ db,
      head (filter (λ r, MatchRequestRow.id r = req_id) (match_requests db)));
    match req with
    | None => raise (HTTPException 404 None)
    | Some req =>
        target ← query (λ db,
          head (filter (λ r, DoctorRow.student_id r = MatchRequestRow.to_student_id req)
                       (doctors db)));
        match target with
        | Some target =>
            insert_or_ignore_matches (DoctorRow.id target, MatchRequestRow.from_id req);;
            insert_or_ignore_matches (MatchRequestRow.from_id req, DoctorRow.id target)
        | None => mret tt
        end;;
        execute (λ db,
          with_match_requests
            (filter (λ r, MatchRequestRow.id r ≠ req_id) (match_requests db)) db);;
        mret "Matched"
    end).

(** [DELETE /matches/{doctor_id}/{target_id}] *)
Definition remove_match (doctor_id target_id : string) : M string :=
  connect (execute (λ db,
    with_matches (matches db ∖ {[ (doctor_id, target_id) ]}) db));;
  mret "removed".

(** *** Patients *)

(** [GET /patients] *)
Definition get_patients (doctor_id : string) : M (list PatientRow.t) :=
  connect (query (λ db,
    filter (λ r, PatientRow.doctor_id r = doctor_id) (patients db))).

(** [POST /patients] *)
Definition add_patient (uuid4 : string) (p : Patient.t) : M Patient.t :=
  let p := Patient.set_id (Some uuid4) p in
  connect (
    insert_patients
      (PatientRow.mk (assigned (Patient.id p)) (Patient.doctor_id p) (Patient.name p)
         (Some (or_empty (Patient.r4 p)))));;
  mret p.

(** [DELETE /patients/{pid}] *)
Definition delete_patient (pid : string) : M string :=
  connect (execute (λ db,
    with_patients (filter (λ r, PatientRow.id r ≠ pid) (patients db)) db));;
  mret "deleted".

(** *** Appointments *)

(** [GET /appointments] *)
Definition get_appointments (doctor_ids : string) : M (list AppointmentRow.t) :=
  let ids := split "," doctor_ids in
  match ids with
  | [] => mret []
  | _ =>
      connect (query (λ db,
        order_by_rank (filter (λ r, AppointmentRow.doctor_id r ∈ ids) (appointments db))))
  end.

(** [POST /appointments] *)
Definition create_appointment (uuid4 : string) (appt : Appointment.t) : M Appointment.t :=
  let appt := Appointment.set_id (Some uuid4) appt in
  connect (
    row ← query (λ db,
      max_rank (filter (in_bucket (Appointment.doctor_id appt) (Appointment.day appt)
                                  (Appointment.session appt))
                       (appointments db)));
    let new_rank := (match row with Some m => m | None => 0 end) + 1 in
    insert_appointments
      (AppointmentRow.mk (assigned (Appointment.id appt)) (Appointment.doctor_id appt)
         (Appointment.day appt) (Appointment.session appt)
         (Appointment.patient_name appt) (Appointment.patient_r4 appt)
         (Appointment.duration appt) (Appointment.type appt)
         (Appointment.other_type_details appt) new_rank));;
  mret appt.

(** [DELETE /appointments/{appt_id}] *)
Definition delete_appointment (appt_id : string) : M string :=
  connect (execute (λ db,
    with_appointments (filter (λ r, AppointmentRow.id r ≠ appt_id) (appointments db)) db));;
  mret "deleted".

(** [UPDATE appointments SET rank = ? WHERE id = ?] *)
Definition update_rank (index : Z) (appt_id : string) : M unit :=
  execute (λ db,
    with_appointments
      ((λ r, if decide (AppointmentRow.id r = appt_id)
             then AppointmentRow.set_rank index r else r) <$> appointments db) db).

(** [for index, appt_id in enumerate(ids)], from [index] on. *)
Fixpoint reorder_from (index : Z) (ids : list string) : M unit :=
  match ids with
  | [] => mret tt
  | appt_id :: ids' => update_rank index appt_id;; reorder_from (index + 1) ids'
  end.

(** [PUT /appointments/reorder] *)
Definition reorder_appointments (req : ReorderRequest.t) : M string :=
  connect (reorder_from 0 (ReorderRequest.ids req));;
  mret "reordered".

(** [PUT /appointments/{appt_id}/move] *)
Definition move_appointment (appt_id : string) (req : MoveRequest.t) : M string :=
  connect (execute (λ db,
    with_appointments
      ((λ r, if decide (AppointmentRow.id r = appt_id)
             then AppointmentRow.set_day_session (MoveRequest.day req)
                    (MoveRequest.session req) r
             else r) <$> appointments db) db));;
  mret "moved".

(** *** Blocked days *)

(** [GET /blocked-days] *)
Definition get_blocked_days (doctor_id : string) : M (list string) :=
  connect (query (λ db,
    (filter (λ row, row.1 = doctor_id) (elements (blocked_days db))).*2)).

(** [POST /blocked-days] *)
Definition toggle_blocked_day (data : BlockedDay.t) : M string :=
  let key := (BlockedDay.doctor_id data, BlockedDay.day data) in
  connect (
    existing ← query (λ db, bool_decide (key ∈ blocked_days db));
    if existing : bool then
      execute (λ db, with_blocked_days (blocked_days db ∖ {[ key ]}) db);;
      mret "unblocked"
    else
      insert_blocked_days key;;
      mret "blocked").

(** [GET /global-blocks] *)
Definition get_global_blocks (doctor_ids : string)
  : M (list (string * string * string)) :=
  let ids := split "," doctor_ids in
  match ids with
  | [] => mret []
  | _ =>
      connect (query (λ db,
        filter (λ row, row.1.1 ∈ ids) (elements (global_blocks db))))
  end.

(** [POST /global-blocks] *)
Definition toggle_global_block (data : GlobalBlock.t) : M string :=
  let key := (GlobalBlock.doctor_id data, GlobalBlock.day_of_week data,
              GlobalBlock.session data) in
  connect (
    exists_ ← query (λ db, bool_decide (key ∈ global_blocks db));
    if exists_ : bool then
      execute (λ db, with_global_blocks (global_blocks db ∖ {[ key ]}) db)
    else
      insert_global_blocks key);;
  mret "toggled".

(** Running an endpoint on a database: the response and the database it
    leaves behind. *)
Definition response {A} (m : M A) (db : Database) : result A := (m db).1.
Definition store {A} (m : M A) (db : Database) : Database := (m db).2.

(** ** Vocabulary of the properties *)

(** The order of [ORDER BY rank ASC]. *)
Definition rank_le (r1 r2 : AppointmentRow.t) : Prop :=
  (AppointmentRow.rank r1 ≤ AppointmentRow.rank r2)%Z.

(** The rank the loop of [reorder_appointments] leaves on a row of id [x]
    and rank [old], when it runs over [ids] counting from [index]. *)
Fixpoint final_rank (index : Z) (ids : list string) (x : string) (old : Z) : Z :=
  match ids with
  | [] => old
  | y :: ids' => final_rank (index + 1) ids' x (if decide (x = y) then index else old)
  end.

(** The row [create_appointment] binds to its [INSERT]. *)
Definition inserted_row (uuid4 : string) (appt : Appointment.t) (new_rank : Z)
  : AppointmentRow.t :=
  AppointmentRow.mk uuid4 (Appointment.doctor_id appt) (Appointment.day appt)
    (Appointment.session appt) (Appointment.patient_name appt)
    (Appointment.patient_r4 appt) (Appointment.duration appt) (Appointment.type appt)
    (Appointment.other_type_details appt) new_rank.

Definition bucket_of (appt : Appointment.t) (db : Database) : list AppointmentRow.t :=
  filter (in_bucket (Appointment.doctor_id appt) (Appointment.day appt)
                    (Appointment.session appt)) (appointments db).

(** The row [register] binds to its [INSERT]. *)
Definition registered_row (uuid4 : string) (randint : N) (doctor : Doctor.t) : DoctorRow.t :=
  DoctorRow.mk uuid4 (Doctor.student_id doctor) (Doctor.username doctor)
    (Doctor.password doctor) (get_random_color randint)
    (Doctor.phone doctor) (Doctor.country_code doctor).

(** ** Sample data *)

Definition ann : Doctor.t := Doctor.mk None "s1" "ann" "pw1" "#3b82f6" [] None None.
Definition bob : Doctor.t :=
  Doctor.mk None "s2" "bob" "pw2" "#3b82f6" [] (Some "5550100") (Some "+1").

(** Two registered practitioners and a connection request from the first
    to the second. *)
Definition two_doctors : Database :=
  store (register "d2" 255 bob) (store (register "d1" 0 ann) init_db).
(** The same two practitioners, registered in the other order. *)
Definition two_doctors_reversed : Database :=
  store (register "d1" 0 ann) (store (register "d2" 255 bob) init_db).
Definition pending_request : Database :=
  store (send_match_request "q1" (MatchRequest.mk None "d1" "ann" "s2")) two_doctors.

Definition visit (patient_name : string) : Appointment.t :=
  Appointment.mk None "d1" "Mon" "Morning" patient_name "r5" "30" "checkup" None 0.

(** Three appointments of one bucket, with ids a, b and c. *)
Definition monday_morning : Database :=
  store (create_appointment "c" (visit "Cy"))
    (store (create_appointment "b" (visit "Bea"))
       (store (create_appointment "a" (visit "Al")) init_db)).

(** The row [send_match_request] binds to its [INSERT]. *)
Definition requested_row (uuid4 : string) (req : MatchRequest.t) : MatchRequestRow.t :=
  MatchRequestRow.mk uuid4 (MatchRequest.from_id req) (MatchRequest.from_name req)
    (MatchRequest.to_student_id req).

(** A row of [doctors] after [UPDATE doctors SET color = ?]. *)
Definition recolored (color : string) (r : DoctorRow.t) : DoctorRow.t :=
  DoctorRow.mk (DoctorRow.id r) (DoctorRow.student_id r) (DoctorRow.username r)
    (DoctorRow.password r) color (DoctorRow.phone r) (DoctorRow.country_code r).

(** [sep.join(l)] *)
Fixpoint join (sep : string) (l : list string) : string :=
  match l with
  | [] => ""
  | x :: l' =>
      match l' with
      | [] => x
      | _ :: _ => x +:+ sep +:+ join sep l'
      end
  end.

(** The characters of a string. *)
Definition chars (s : string) : list ascii := list_ascii_of_string s.

(** The value of a hexadecimal digit, and of a string of them read from
    left to right as [int(s, 16)] reads it. *)
Definition hex_digit_value (c : ascii) : N :=
  match c with
  | "0" => 0 | "1" => 1 | "2" => 2 | "3" => 3 | "4" => 4 | "5" => 5
  | "6" => 6 | "7" => 7 | "8" => 8 | "9" => 9 | "a" => 10 | "b" => 11
  | "c" => 12 | "d" => 13 | "e" => 14 | "f" => 15 | _ => 0
  end%N%char.

Fixpoint hex_value_from (acc : N) (s : string) : N :=
  match s with
  | EmptyString => acc
  | String c s' => hex_value_from (16 * acc + hex_digit_value c)%N s'
  end.

(** ** The interface as a state machine *)

(** One request to the interface: an endpoint with its arguments and, for
    the endpoints that draw them, the generated id and the random
    number. *)
Inductive request :=
| Register (uuid4 : string) (randint : N) (doctor : Doctor.t)
| Login (creds : LoginRequest.t)
| GetMe (id : string)
| GetDoctorsBatch (ids : string)
| UpdateColor (doctor_id color : string)
| SendMatchRequest (uuid4 : string) (req : MatchRequest.t)
| GetMatchRequests (to_student_id : string)
| AcceptMatch (req_id : string)
| RemoveMatch (doctor_id target_id : string)
| GetPatients (doctor_id : string)
| AddPatient (uuid4 : string) (p : Patient.t)
| DeletePatient (pid : string)
| GetAppointments (doctor_ids : string)
| CreateAppointment (uuid4 : string) (appt : Appointment.t)
| DeleteAppointment (appt_id : string)
| ReorderAppointments (req : ReorderRequest.t)
| MoveAppointment (appt_id : string) (req : MoveRequest.t)
| GetBlockedDays (doctor_id : string)
| ToggleBlockedDay (data : BlockedDay.t)
| GetGlobalBlocks (doctor_ids : string)
| ToggleGlobalBlock (data : GlobalBlock.t).

(** The database a request leaves behind. *)
Definition handle (q : request) (db : Database) : Database :=
  match q with
  | Register uuid4 randint doctor => store (register uuid4 randint doctor) db
  | Login creds => store (login creds) db
  | GetMe id => store (get_me id) db
  | GetDoctorsBatch ids => store (get_doctors_batch ids) db
  | UpdateColor doctor_id color => store (update_color doctor_id color) db
  | SendMatchRequest uuid4 req => store (send_match_request uuid4 req) db
  | GetMatchRequests to_student_id => store (get_match_requests to_student_id) db
  | AcceptMatch req_id => store (accept_match req_id) db
  | RemoveMatch doctor_id target_id => store (remove_match doctor_id target_id) db
  | GetPatients doctor_id => store (get_patients doctor_id) db
  | AddPatient uuid4 p => store (add_patient uuid4 p) db
  | DeletePatient pid => store (delete_patient pid) db
  | GetAppointments doctor_ids => store (get_appointments doctor_ids) db
  | CreateAppointment uuid4 appt => store (create_appointment uuid4 appt) db
  | DeleteAppointment appt_id => store (delete_appointment appt_id) db
  | ReorderAppointments req => store (reorder_appointments req) db
  | MoveAppointment appt_id req => store (move_appointment appt_id req) db
  | GetBlockedDays doctor_id => store (get_blocked_days doctor_id) db
  | ToggleBlockedDay data => store (toggle_blocked_day data) db
  | GetGlobalBlocks doctor_ids => store (get_global_blocks doctor_ids) db
  | ToggleGlobalBlock data => store (toggle_global_block data) db
  end.

(** The databases the interface can produce from the empty one. *)
Inductive reachable : Database → Prop :=
| reachable_init : reachable init_db
| reachable_step q db : reachable db → reachable (handle q db).

(** The [PRIMARY KEY] and [UNIQUE] constraints of the schema that concern
    one column. *)
Definition keys_unique (db : Database) : Prop :=
  NoDup (DoctorRow.id <$> doctors db) ∧
  NoDup (DoctorRow.student_id <$> doctors db) ∧
  NoDup (MatchRequestRow.id <$> match_requests db) ∧
  NoDup (PatientRow.id <$> patients db) ∧
  NoDup (AppointmentRow.id <$> appointments db).

(** Every pending request addresses a practitioner other than its
    sender. *)
Definition requests_resolvable (db : Database) : Prop :=
  ∀ q, q ∈ match_requests db →
    ∃ d, d ∈ doctors db ∧
      DoctorRow.student_id d = MatchRequestRow.to_student_id q ∧
      DoctorRow.id d ≠ MatchRequestRow.from_id q.

Definition no_self_match (db : Database) : Prop :=
  ∀ a b, (a, b) ∈ matches db → a ≠ b.

Definition stored_values_ok (db : Database) : Prop :=
  (∀ r, r ∈ appointments db → 0 ≤ AppointmentRow.rank r) ∧
  (∀ p, p ∈ patients db → PatientRow.r4 p ≠ None).

Definition invariant (db : Database) : Prop :=
  keys_unique db ∧ requests_resolvable db ∧ no_self_match db ∧ stored_values_ok db.

(** The database a sequence of requests leaves behind. *)
Definition handle_all (qs : list request) (db : Database) : Database :=
  foldl (λ db q, handle q db) db qs.

(** Two rows of [doctors] that agree on everything but the color. *)
Definition same_credentials (d d' : DoctorRow.t) : Prop :=
  DoctorRow.id d' = DoctorRow.id d ∧
  DoctorRow.student_id d' = DoctorRow.student_id d ∧
  DoctorRow.username d' = DoctorRow.username d ∧
  DoctorRow.password d' = DoctorRow.password d ∧
  DoctorRow.phone d' = DoctorRow.phone d ∧
  DoctorRow.country_code d' = DoctorRow.country_code d.

(** A patient of the first practitioner, without a secondary identifier. *)
Definition bob_the_patient : Patient.t := Patient.mk None "d1" "Bob" None.

(** * Properties *)

(** Unfolds an endpoint down to a function of the database. *)
Ltac run_endpoint :=
  unfold response, store, connect, mbind, M_bind, mret, M_ret,
    query, raise, execute in *; simpl in *.

(** ** Selections *)

Section selection.
Context {A : Type} (P : A → Prop) `{Pdec : !∀ x, Decision (P x)}.

Lemma filter_empty_iff (l : list A) : filter P l = [] ↔ ∀ x, x ∈ l → ¬ P x.
Proof.
  split.
  - intros H x Hx HP. by eapply filter_nil_not_elem_of.
  - intros H. induction l as [|h t IH]; [done|].
    rewrite filter_cons_False by (apply H; left).
    apply IH. intros x Hx. apply H. by right.
Qed.

(** [fetchone()] on a selection: [None] when no row is selected. *)
Lemma fetchone_None (l : list A) : head (filter P l) = None ↔ ∀ x, x ∈ l → ¬ P x.
Proof.
  rewrite <- filter_empty_iff. destruct (filter P l); simpl; split; congruence.
Qed.

Lemma fetchone_Some (l : list A) (x : A) : head (filter P l) = Some x → x ∈ l ∧ P x.
Proof.
  intros H. assert (x ∈ filter P l) as Hin.
  { destruct (filter P l); simplify_eq/=. left. }
  apply list_elem_of_filter in Hin. tauto.
Qed.

Lemma filter_snoc_True (l : list A) (x : A) : P x → filter P (l ++ [x]) = filter P l ++ [x].
Proof. intros HP. rewrite filter_app. f_equal. by rewrite filter_cons_True. Qed.

Lemma filter_snoc_False (l : list A) (x : A) : ¬ P x → filter P (l ++ [x]) = filter P l.
Proof.
  intros HP. rewrite filter_app, filter_cons_False by done.
  apply app_nil_r.
Qed.
End selection.

(** ** [split] *)

Lemma split_from_nonempty sep cur s : split_from sep cur s ≠ [].
Proof.
  revert cur. induction s as [|c s IH]; intros cur; simpl.
  - discriminate.
  - destruct (decide (c = sep)); [discriminate | apply IH].
Qed.

Lemma split_nonempty sep s : split sep s ≠ [].
Proof. apply split_from_nonempty. Qed.

(** ** [ORDER BY rank] *)

Lemma insert_by_rank_perm r l : insert_by_rank r l ≡ₚ r :: l.
Proof.
  induction l as [|h t IH]; simpl; [done|].
  destruct (decide _); [done|].
  rewrite IH. apply Permutation_swap.
Qed.

Lemma order_by_rank_perm l : order_by_rank l ≡ₚ l.
Proof.
  induction l as [|r l IH]; simpl; [done|].
  rewrite insert_by_rank_perm. by rewrite IH.
Qed.

Lemma elem_of_order_by_rank r l : r ∈ order_by_rank l ↔ r ∈ l.
Proof. by rewrite order_by_rank_perm. Qed.

Lemma insert_by_rank_sorted r l :
  StronglySorted rank_le l → StronglySorted rank_le (insert_by_rank r l).
Proof.
  induction l as [|h t IH]; simpl; intros Hs.
  - repeat constructor.
  - apply StronglySorted_cons in Hs as [Hh Ht].
    destruct (decide _) as [Hle|Hgt].
    + apply StronglySorted_cons. split.
      * constructor; [done|].
        eapply Forall_impl; [exact Hh|]. unfold rank_le in *. intros; lia.
      * apply StronglySorted_cons. done.
    + apply StronglySorted_cons. split; [|by apply IH].
      rewrite insert_by_rank_perm. constructor; [|done].
      unfold rank_le. lia.
Qed.

Lemma order_by_rank_sorted l : StronglySorted rank_le (order_by_rank l).
Proof.
  induction l as [|r l IH]; simpl; [constructor|].
  by apply insert_by_rank_sorted.
Qed.

Lemma order_by_rank_nil l : order_by_rank l = [] ↔ l = [].
Proof.
  split; [|by intros ->].
  intros H. apply Permutation_nil_r. rewrite <- H. by rewrite order_by_rank_perm.
Qed.

(** ** Rows in the order of the primary-key index *)

Lemma insert_by_id_perm r l : insert_by_id r l ≡ₚ r :: l.
Proof.
  induction l as [|h t IH]; simpl; [done|].
  destruct (String.leb _ _); [done|].
  rewrite IH. apply Permutation_swap.
Qed.

Lemma order_by_id_perm l : order_by_id l ≡ₚ l.
Proof.
  induction l as [|r l IH]; simpl; [done|].
  rewrite insert_by_id_perm. by rewrite IH.
Qed.

Lemma elem_of_order_by_id r l : r ∈ order_by_id l ↔ r ∈ l.
Proof. by rewrite order_by_id_perm. Qed.

Lemma order_by_id_nil l : order_by_id l = [] ↔ l = [].
Proof.
  split; [|by intros ->].
  intros H. apply Permutation_nil_r. rewrite <- H. by rewrite order_by_id_perm.
Qed.

Lemma insert_by_id_sorted r l :
  StronglySorted (λ r1 r2, String.le (DoctorRow.id r1) (DoctorRow.id r2)) l →
  StronglySorted (λ r1 r2, String.le (DoctorRow.id r1) (DoctorRow.id r2))
                 (insert_by_id r l).
Proof.
  induction l as [|h t IH]; simpl; intros Hs.
  - repeat constructor.
  - apply StronglySorted_cons in Hs as [Hh Ht].
    destruct (String.leb (DoctorRow.id r) (DoctorRow.id h)) eqn:Hle.
    + apply StronglySorted_cons. split.
      * assert (String.le (DoctorRow.id r) (DoctorRow.id h)) as Hrh
          by (unfold String.le; by rewrite Hle).
        constructor; [done|].
        eapply Forall_impl; [exact Hh|]. intros x Hx. simpl in *. by etrans.
      * by apply StronglySorted_cons.
    + apply StronglySorted_cons. split; [|by apply IH].
      rewrite insert_by_id_perm. constructor; [|done].
      destruct (total String.le (DoctorRow.id h) (DoctorRow.id r)) as [Hhr|Hrh];
        [done|].
      unfold String.le in Hrh. by rewrite Hle in Hrh.
Qed.

(** The rows [get_doctors_batch] returns are in ascending order of id. *)
Lemma order_by_id_sorted l :
  StronglySorted (λ r1 r2, String.le (DoctorRow.id r1) (DoctorRow.id r2))
                 (order_by_id l).
Proof.
  induction l as [|r l IH]; simpl; [constructor|].
  by apply insert_by_id_sorted.
Qed.

(** In a list sorted by rank, a row of smaller rank comes before any row of
    larger rank. *)
Lemma sorted_before x y l :
  StronglySorted rank_le l → x ∈ l → y ∈ l →
  (AppointmentRow.rank x < AppointmentRow.rank y)%Z →
  ∃ l1 l2, l = l1 ++ x :: l2 ∧ y ∈ l2.
Proof.
  intros Hs Hx Hy Hlt.
  apply list_elem_of_split in Hx as (l1 & l2 & ->).
  exists l1, l2. split; [done|].
  apply elem_of_app in Hy as [Hy|Hy].
  - exfalso.
    assert (rank_le y x) as Hle.
    { eapply StronglySorted_app_1_elem_of; [exact Hs|done|]. left. }
    unfold rank_le in Hle. lia.
  - apply elem_of_cons in Hy as [->|Hy]; [lia|done].
Qed.

(** ** [MAX(rank)] *)

Lemma max_rank_None rows : max_rank rows = None ↔ rows = [].
Proof. destruct rows; simpl; split; congruence. Qed.

Lemma max_rank_Some rows m :
  max_rank rows = Some m →
  (∃ r, r ∈ rows ∧ AppointmentRow.rank r = m) ∧
  (∀ r, r ∈ rows → (AppointmentRow.rank r ≤ m)%Z).
Proof.
  revert m. induction rows as [|h t IH]; simpl; intros m Hm; [done|].
  destruct (max_rank t) as [m'|] eqn:Ht.
  - destruct (IH m' eq_refl) as [(r & Hr & Hrm) Hall].
    injection Hm as <-. split.
    + destruct (Z.max_spec (AppointmentRow.rank h) m') as [[_ ->]|[_ ->]].
      * exists r. split; [by right|done].
      * exists h. split; [by left|done].
    + intros r' [->|Hin]%elem_of_cons; [lia|].
      specialize (Hall _ Hin). lia.
  - apply max_rank_None in Ht as ->. injection Hm as <-. split.
    + exists h. split; [by left|done].
    + intros r' [->|Hin]%elem_of_cons; [lia|]. by apply elem_of_nil in Hin.
Qed.

(** ** Batch reads: the guard on an empty id list *)

(** C10. In [get_doctors_batch] and [get_appointments] the early return on
    an empty id list is never taken: [split] of any string on a comma is a
    non-empty list, so both endpoints always run their query and return
    the selected rows (in the order of the query, which is not at issue
    here).  With the empty string the query runs with the single id [""],
    and its result is empty exactly when no stored row carries the empty
    id. *)
Theorem empty_id_list_guard_unreachable :
  (∀ s, split "," s ≠ []) ∧
  (∀ ids db, ∃ rows,
      get_doctors_batch ids db = (Ok rows, db) ∧
      rows ≡ₚ filter (λ r, DoctorRow.id r ∈ split "," ids) (doctors db)) ∧
  (∀ doctor_ids db, ∃ rows,
      get_appointments doctor_ids db = (Ok rows, db) ∧
      StronglySorted (λ r1 r2, AppointmentRow.rank r1 ≤ AppointmentRow.rank r2) rows ∧
      rows ≡ₚ filter (λ r, AppointmentRow.doctor_id r ∈ split "," doctor_ids)
                     (appointments db)) ∧
  split "," "" = [""] ∧
  (∀ db, ∃ rows,
      get_doctors_batch "" db = (Ok rows, db) ∧
      (∀ r, r ∈ rows ↔ r ∈ doctors db ∧ DoctorRow.id r = "") ∧
      (rows = [] ↔ ∀ r, r ∈ doctors db → DoctorRow.id r ≠ "")) ∧
  (∀ db, ∃ rows,
      get_appointments "" db = (Ok rows, db) ∧
      (∀ r, r ∈ rows ↔ r ∈ appointments db ∧ AppointmentRow.doctor_id r = "") ∧
      (rows = [] ↔ ∀ r, r ∈ appointments db → AppointmentRow.doctor_id r ≠ "")).
Proof.
  split_and!.
  - intros s. apply split_nonempty.
  - intros ids db.
    exists (order_by_id (filter (λ r, DoctorRow.id r ∈ split "," ids) (doctors db))).
    split; [|apply order_by_id_perm]. unfold get_doctors_batch.
    destruct (split "," ids) eqn:E; [by apply split_nonempty in E|done].
  - intros ids db.
    exists (order_by_rank
              (filter (λ r, AppointmentRow.doctor_id r ∈ split "," ids)
                      (appointments db))).
    split; [|split; [apply order_by_rank_sorted|apply order_by_rank_perm]].
    unfold get_appointments.
    destruct (split "," ids) eqn:E; [by apply split_nonempty in E|done].
  - done.
  - intros db.
    exists (order_by_id (filter (λ r, DoctorRow.id r ∈ [""]) (doctors db))).
    split; [reflexivity|]. split.
    + intros r. rewrite elem_of_order_by_id, list_elem_of_filter,
        list_elem_of_singleton. tauto.
    + rewrite order_by_id_nil, filter_empty_iff.
      by setoid_rewrite list_elem_of_singleton.
  - intros db.
    exists (order_by_rank
              (filter (λ r, AppointmentRow.doctor_id r ∈ [""]) (appointments db))).
    split; [reflexivity|]. split.
    + intros r. rewrite elem_of_order_by_rank, list_elem_of_filter,
        list_elem_of_singleton. tauto.
    + rewrite order_by_rank_nil, filter_empty_iff.
      by setoid_rewrite list_elem_of_singleton.
Qed.

(** ** Blocking *)

Lemma toggle_blocked_day_run data db :
  let key := (BlockedDay.doctor_id data, BlockedDay.day data) in
  toggle_blocked_day data db =
  if decide (key ∈ blocked_days db)
  then (Ok "unblocked", with_blocked_days (blocked_days db ∖ {[ key ]}) db)
  else (Ok "blocked", with_blocked_days (blocked_days db ∪ {[ key ]}) db).
Proof.
  intros key. unfold toggle_blocked_day, insert_blocked_days. run_endpoint.
  fold key. rewrite bool_decide_decide.
  destruct (decide (key ∈ blocked_days db)) as [Hin|Hout]; simpl; [done|].
  by rewrite decide_False.
Qed.

Lemma toggle_global_block_run data db :
  let key := (GlobalBlock.doctor_id data, GlobalBlock.day_of_week data,
              GlobalBlock.session data) in
  toggle_global_block data db =
  (Ok "toggled",
   with_global_blocks
     (if decide (key ∈ global_blocks db)
      then global_blocks db ∖ {[ key ]} else global_blocks db ∪ {[ key ]}) db).
Proof.
  intros key. unfold toggle_global_block, insert_global_blocks. run_endpoint.
  fold key. rewrite bool_decide_decide.
  destruct (decide (key ∈ global_blocks db)) as [Hin|Hout]; simpl; [done|].
  by rewrite decide_False.
Qed.

Lemma toggle_twice {K} {Keq : EqDecision K} {Kcount : Countable K}
    (key : K) (s : gset K) :
  (if decide (key ∈ s)
   then (s ∖ {[ key ]}) ∪ {[ key ]} else (s ∪ {[ key ]}) ∖ {[ key ]}) = s.
Proof.
  destruct (decide (key ∈ s)) as [Hin|Hout]; apply set_eq; intros x;
    destruct (decide (x = key)); set_solver.
Qed.

(** C9. One [toggle_blocked_day] inserts the pair (practitioner, day) when
    it is absent and deletes it when it is present, leaving every other
    pair and every other table as they were; two toggles of the same pair
    bring the database back to where it started.  The same holds of
    [toggle_global_block] on (practitioner, weekday, session). *)
Theorem toggle_presence_and_involution :
  (∀ data db,
     let key := (BlockedDay.doctor_id data, BlockedDay.day data) in
     let db' := store (toggle_blocked_day data) db in
     (key ∉ blocked_days db →
        response (toggle_blocked_day data) db = Ok "blocked" ∧ key ∈ blocked_days db') ∧
     (key ∈ blocked_days db →
        response (toggle_blocked_day data) db = Ok "unblocked" ∧ key ∉ blocked_days db') ∧
     (∀ k, k ≠ key → k ∈ blocked_days db' ↔ k ∈ blocked_days db) ∧
     with_blocked_days (blocked_days db) db' = db ∧
     store (toggle_blocked_day data) db' = db) ∧
  (∀ data db,
     let key := (GlobalBlock.doctor_id data, GlobalBlock.day_of_week data,
                 GlobalBlock.session data) in
     let db' := store (toggle_global_block data) db in
     response (toggle_global_block data) db = Ok "toggled" ∧
     (key ∉ global_blocks db → key ∈ global_blocks db') ∧
     (key ∈ global_blocks db → key ∉ global_blocks db') ∧
     (∀ k, k ≠ key → k ∈ global_blocks db' ↔ k ∈ global_blocks db) ∧
     with_global_blocks (global_blocks db) db' = db ∧
     store (toggle_global_block data) db' = db).
Proof.
  split.
  - intros data db key db'. subst db'. unfold response, store.
    pose proof (toggle_twice key (blocked_days db)) as Htwice.
    rewrite (toggle_blocked_day_run data db). fold key.
    destruct (decide (key ∈ blocked_days db)) as [Hin|Hout]; simpl;
      rewrite toggle_blocked_day_run; simpl; fold key.
    + rewrite decide_False by set_solver. simpl.
      split_and!; [done | intros _; split; [done|set_solver] | set_solver
                  | by destruct db | destruct db; simpl in *; by rewrite Htwice].
    + rewrite decide_True by set_solver. simpl.
      split_and!; [intros _; split; [done|set_solver] | done | set_solver
                  | by destruct db | destruct db; simpl in *; by rewrite Htwice].
  - intros data db key db'. subst db'. unfold response, store.
    pose proof (toggle_twice key (global_blocks db)) as Htwice.
    rewrite (toggle_global_block_run data db). fold key. simpl.
    rewrite toggle_global_block_run. fold key. simpl.
    destruct (decide (key ∈ global_blocks db)) as [Hin|Hout]; simpl.
    + rewrite decide_False by set_solver. simpl.
      split_and!; [done | done | intros _; set_solver | set_solver
                  | by destruct db | destruct db; simpl in *; by rewrite Htwice].
    + rewrite decide_True by set_solver. simpl.
      split_and!; [done | intros _; set_solver | done | set_solver
                  | by destruct db | destruct db; simpl in *; by rewrite Htwice].
Qed.

(** ** Moving an appointment *)

(** C4. [move_appointment] rewrites the day and the session of the rows
    whose id is the given one and nothing else: such a row keeps its rank
    and every other column, every other row is left as it was and in its
    place, and no other table changes. *)
Theorem move_appointment_frame appt_id req db :
  let db' := store (move_appointment appt_id req) db in
  response (move_appointment appt_id req) db = Ok "moved" ∧
  with_appointments (appointments db) db' = db ∧
  List.length (appointments db') = List.length (appointments db) ∧
  ∀ (i : nat) r, appointments db !! i = Some r →
    ∃ r', appointments db' !! i = Some r' ∧
      AppointmentRow.id r' = AppointmentRow.id r ∧
      AppointmentRow.doctor_id r' = AppointmentRow.doctor_id r ∧
      AppointmentRow.patient_name r' = AppointmentRow.patient_name r ∧
      AppointmentRow.patient_r4 r' = AppointmentRow.patient_r4 r ∧
      AppointmentRow.duration r' = AppointmentRow.duration r ∧
      AppointmentRow.type r' = AppointmentRow.type r ∧
      AppointmentRow.other_type_details r' = AppointmentRow.other_type_details r ∧
      AppointmentRow.rank r' = AppointmentRow.rank r ∧
      (AppointmentRow.id r = appt_id →
         AppointmentRow.day r' = MoveRequest.day req ∧
         AppointmentRow.session r' = MoveRequest.session req) ∧
      (AppointmentRow.id r ≠ appt_id → r' = r).
Proof.
  unfold move_appointment. run_endpoint.
  split_and!; [done | by destruct db | by rewrite length_fmap |].
  intros i r Hi. rewrite list_lookup_fmap, Hi. simpl.
  eexists. split; [reflexivity|].
  destruct (decide (AppointmentRow.id r = appt_id)); simpl; split_and!; done.
Qed.

(** ** Reordering *)

Lemma final_rank_not_listed index ids x old :
  x ∉ ids → final_rank index ids x old = old.
Proof.
  revert index old. induction ids as [|y ids IH]; intros index old Hx; simpl; [done|].
  apply not_elem_of_cons in Hx as [Hne Hx].
  rewrite decide_False by done. by apply IH.
Qed.

Lemma final_rank_last_position index ids x old (i : nat) :
  ids !! i = Some x → x ∉ drop (S i) ids →
  final_rank index ids x old = index + Z.of_nat i.
Proof.
  revert index old i. induction ids as [|y ids IH]; intros index old i Hi Hlast; [done|].
  destruct i as [|i]; simpl in *.
  - injection Hi as ->. rewrite decide_True by done.
    rewrite drop_0 in Hlast. rewrite final_rank_not_listed by done. lia.
  - rewrite (IH _ _ i) by done. lia.
Qed.

Lemma set_rank_same r : AppointmentRow.set_rank (AppointmentRow.rank r) r = r.
Proof. by destruct r. Qed.

Lemma reorder_from_run index ids db :
  reorder_from index ids db =
  (Ok tt,
   with_appointments
     ((λ r, AppointmentRow.set_rank
              (final_rank index ids (AppointmentRow.id r) (AppointmentRow.rank r)) r)
        <$> appointments db) db).
Proof.
  revert index db. induction ids as [|y ids IH]; intros index db; simpl.
  - unfold mret, M_ret. f_equal. destruct db; unfold with_appointments; simpl.
    f_equal. rewrite <- (list_fmap_id appointments0) at 1.
    apply list_fmap_ext. intros _ r _. simpl. symmetry. apply set_rank_same.
  - unfold update_rank. run_endpoint. rewrite IH. simpl. f_equal.
    unfold with_appointments. simpl. f_equal.
    rewrite <- list_fmap_compose. apply list_fmap_ext. intros _ r _. simpl.
    destruct (decide (AppointmentRow.id r = y)); simpl; done.
Qed.

Lemma get_appointments_run doctor_ids db :
  get_appointments doctor_ids db =
  (Ok (order_by_rank
         (filter (λ r, AppointmentRow.doctor_id r ∈ split "," doctor_ids)
                 (appointments db))), db).
Proof.
  unfold get_appointments.
  destruct (split "," doctor_ids) eqn:E; [by apply split_nonempty in E|done].
Qed.

Lemma reorder_appointments_run req db :
  reorder_appointments req db =
  (Ok "reordered",
   with_appointments
     ((λ r, AppointmentRow.set_rank
              (final_rank 0 (ReorderRequest.ids req) (AppointmentRow.id r)
                 (AppointmentRow.rank r)) r)
        <$> appointments db) db).
Proof. unfold reorder_appointments. run_endpoint. by rewrite reorder_from_run. Qed.

Lemma reorder_appointments_elem req db r (i : nat) :
  r ∈ appointments db →
  ReorderRequest.ids req !! i = Some (AppointmentRow.id r) →
  AppointmentRow.id r ∉ drop (S i) (ReorderRequest.ids req) →
  AppointmentRow.set_rank (Z.of_nat i) r ∈ appointments (store (reorder_appointments req) db).
Proof.
  intros Hr Hi Hlast. unfold store. rewrite reorder_appointments_run. simpl.
  apply list_elem_of_fmap. exists r. split; [|done].
  by rewrite (final_rank_last_position _ _ _ _ i).
Qed.

(** C3. [reorder_appointments] leaves on every listed appointment the
    zero-based position of its id in the list (its last position, should
    the id be listed more than once), changes no other column, and leaves
    unlisted appointments and all other tables alone.  With the ids
    [c; a; b] the three rows get ranks 0, 1 and 2, and [get_appointments]
    for their practitioners then lists c before a before b. *)
Theorem reorder_rewrites_ranks_to_positions :
  (∀ req db,
     let db' := store (reorder_appointments req) db in
     response (reorder_appointments req) db = Ok "reordered" ∧
     with_appointments (appointments db) db' = db ∧
     List.length (appointments db') = List.length (appointments db) ∧
     ∀ (p : nat) r, appointments db !! p = Some r →
       ∃ r', appointments db' !! p = Some r' ∧
         AppointmentRow.set_rank (AppointmentRow.rank r) r' = r ∧
         (AppointmentRow.id r ∉ ReorderRequest.ids req → r' = r) ∧
         (∀ i : nat,
            ReorderRequest.ids req !! i = Some (AppointmentRow.id r) →
            AppointmentRow.id r ∉ drop (S i) (ReorderRequest.ids req) →
            AppointmentRow.rank r' = Z.of_nat i)) ∧
  (∀ a b c ra rb rc doctor_ids db,
     a ≠ b → a ≠ c → b ≠ c →
     ra ∈ appointments db → AppointmentRow.id ra = a →
     rb ∈ appointments db → AppointmentRow.id rb = b →
     rc ∈ appointments db → AppointmentRow.id rc = c →
     AppointmentRow.doctor_id ra ∈ split "," doctor_ids →
     AppointmentRow.doctor_id rb ∈ split "," doctor_ids →
     AppointmentRow.doctor_id rc ∈ split "," doctor_ids →
     let db' := store (reorder_appointments (ReorderRequest.mk [c; a; b])) db in
     let rc' := AppointmentRow.set_rank 0 rc in
     let ra' := AppointmentRow.set_rank 1 ra in
     let rb' := AppointmentRow.set_rank 2 rb in
     rc' ∈ appointments db' ∧ ra' ∈ appointments db' ∧ rb' ∈ appointments db' ∧
     (∀ r, r ∈ appointments db' → AppointmentRow.id r = c → AppointmentRow.rank r = 0) ∧
     (∀ r, r ∈ appointments db' → AppointmentRow.id r = a → AppointmentRow.rank r = 1) ∧
     (∀ r, r ∈ appointments db' → AppointmentRow.id r = b → AppointmentRow.rank r = 2) ∧
     ∃ l1 l2 l3 l4,
       response (get_appointments doctor_ids) db' =
       Ok (l1 ++ rc' :: l2 ++ ra' :: l3 ++ rb' :: l4)).
Proof.
  split.
  - intros req db db'. subst db'. unfold response, store.
    rewrite reorder_appointments_run. simpl.
    split_and!; [done | by destruct db | by rewrite length_fmap |].
    intros p r Hp. rewrite list_lookup_fmap, Hp. simpl.
    eexists. split; [reflexivity|]. split_and!.
    + by destruct r.
    + intros Hnot. rewrite final_rank_not_listed by done. apply set_rank_same.
    + intros i Hi Hlast. simpl. by rewrite (final_rank_last_position _ _ _ _ i).
  - intros a b c ra rb rc doctor_ids db Hab Hac Hbc Hra Ha Hrb Hb Hrc Hc Hda Hdb Hdc
      db' rc' ra' rb'.
    assert (rc' ∈ appointments db') as Hc'.
    { apply (reorder_appointments_elem (ReorderRequest.mk [c; a; b]) db rc 0);
        simpl; [done | by rewrite Hc |].
      rewrite Hc. set_solver. }
    assert (ra' ∈ appointments db') as Ha'.
    { apply (reorder_appointments_elem (ReorderRequest.mk [c; a; b]) db ra 1);
        simpl; [done | by rewrite Ha |].
      rewrite Ha. set_solver. }
    assert (rb' ∈ appointments db') as Hb'.
    { apply (reorder_appointments_elem (ReorderRequest.mk [c; a; b]) db rb 2);
        simpl; [done | by rewrite Hb |].
      rewrite Hb. set_solver. }
    split_and!; [done | done | done | | | |].
    1-3: intros r Hr Hid; unfold db', store in Hr;
      rewrite reorder_appointments_run in Hr; simpl in Hr;
      apply list_elem_of_fmap in Hr as (r0 & -> & _); simpl in Hid |- *;
      repeat (destruct (decide _); try congruence); lia.
    unfold response. rewrite get_appointments_run. simpl.
    set (out := order_by_rank _).
    assert (StronglySorted rank_le out) as Hsorted by apply order_by_rank_sorted.
    assert (∀ r, r ∈ appointments db' →
                 AppointmentRow.doctor_id r ∈ split "," doctor_ids → r ∈ out) as Hout.
    { intros r Hr Hd. apply elem_of_order_by_rank, list_elem_of_filter. done. }
    destruct (sorted_before rc' ra' out) as (l1 & t1 & Eout & Hat1);
      [done | by apply Hout | by apply Hout | simpl; lia |].
    assert (rb' ∈ t1) as Hbt1.
    { destruct (sorted_before rc' rb' out) as (l1' & t1' & Eout' & Hbt1');
        [done | by apply Hout | by apply Hout | simpl; lia |].
      assert (rb' ∈ out) as Hbo by (by apply Hout).
      rewrite Eout in Hbo. apply elem_of_app in Hbo as [Hbo|Hbo].
      - exfalso. rewrite Eout in Hsorted.
        assert (rank_le rb' rc') as Hle.
        { eapply StronglySorted_app_1_elem_of; [exact Hsorted|done|left]. }
        unfold rank_le in Hle. simpl in Hle. lia.
      - apply elem_of_cons in Hbo as [Hbo|Hbo]; [|done].
        apply (f_equal AppointmentRow.rank) in Hbo. simpl in Hbo. lia. }
    assert (StronglySorted rank_le t1) as Hsorted1.
    { rewrite Eout in Hsorted. apply StronglySorted_app_1_r in Hsorted.
      apply StronglySorted_cons in Hsorted. tauto. }
    destruct (sorted_before ra' rb' t1) as (l2 & t2 & Et1 & Hbt2);
      [done | done | done | simpl; lia |].
    apply list_elem_of_split in Hbt2 as (l3 & l4 & ->).
    exists l1, l2, l3, l4. by rewrite Eout, Et1.
Qed.

(** ** Creating an appointment *)

Lemma create_appointment_run uuid4 appt db :
  (∀ r, r ∈ appointments db → AppointmentRow.id r ≠ uuid4) →
  create_appointment uuid4 appt db =
  (Ok (Appointment.set_id (Some uuid4) appt),
   with_appointments
     (appointments db ++
      [inserted_row uuid4 appt
         ((match max_rank (bucket_of appt db) with Some m => m | None => 0 end) + 1)])
     db).
Proof.
  intros Hfresh. unfold create_appointment, insert_appointments. run_endpoint.
  rewrite decide_False; [done|].
  rewrite Exists_exists. intros (r & Hr & Hid). by eapply Hfresh.
Qed.

Lemma create_appointment_collision uuid4 appt db r :
  r ∈ appointments db → AppointmentRow.id r = uuid4 →
  create_appointment uuid4 appt db = (Raise IntegrityError, db).
Proof.
  intros Hr Hid. unfold create_appointment, insert_appointments. run_endpoint.
  rewrite decide_True; [done|]. apply Exists_exists. eauto.
Qed.

Lemma in_bucket_inserted_row uuid4 appt k :
  in_bucket (Appointment.doctor_id appt) (Appointment.day appt)
            (Appointment.session appt) (inserted_row uuid4 appt k).
Proof. by unfold in_bucket. Qed.

(** C1. The rank [create_appointment] persists is 1 when the bucket
    (practitioner, day, session) of the new appointment is empty, and
    otherwise one more than the largest rank in that bucket.  Three
    appointments created one after the other in an empty bucket are stored
    with ranks 1, 2 and 3, in creation order. *)
Theorem create_appointment_rank_is_max_plus_one :
  (∀ uuid4 appt db,
     (∀ r, r ∈ appointments db → AppointmentRow.id r ≠ uuid4) →
     let bucket := filter (in_bucket (Appointment.doctor_id appt) (Appointment.day appt)
                                     (Appointment.session appt)) (appointments db) in
     ∃ row,
       appointments (store (create_appointment uuid4 appt) db) = appointments db ++ [row] ∧
       AppointmentRow.id row = uuid4 ∧
       in_bucket (Appointment.doctor_id appt) (Appointment.day appt)
                 (Appointment.session appt) row ∧
       (bucket = [] → AppointmentRow.rank row = 1) ∧
       (bucket ≠ [] →
          (∃ r, r ∈ bucket ∧ AppointmentRow.rank row = AppointmentRow.rank r + 1) ∧
          (∀ r, r ∈ bucket → AppointmentRow.rank r < AppointmentRow.rank row))) ∧
  (∀ u1 u2 u3 a1 a2 a3 d y s db,
     (∀ r, r ∈ appointments db → ¬ in_bucket d y s r) →
     (∀ r, r ∈ appointments db → AppointmentRow.id r ∉ [u1; u2; u3]) →
     NoDup [u1; u2; u3] →
     (∀ a, a ∈ [a1; a2; a3] →
        Appointment.doctor_id a = d ∧ Appointment.day a = y ∧ Appointment.session a = s) →
     let db1 := store (create_appointment u1 a1) db in
     let db2 := store (create_appointment u2 a2) db1 in
     let db3 := store (create_appointment u3 a3) db2 in
     ∃ r1 r2 r3,
       appointments db3 = appointments db ++ [r1; r2; r3] ∧
       AppointmentRow.id r1 = u1 ∧ AppointmentRow.rank r1 = 1 ∧
       AppointmentRow.id r2 = u2 ∧ AppointmentRow.rank r2 = 2 ∧
       AppointmentRow.id r3 = u3 ∧ AppointmentRow.rank r3 = 3).
Proof.
  split.
  - intros uuid4 appt db Hfresh bucket. unfold store.
    rewrite create_appointment_run by done. simpl. fold bucket.
    unfold bucket_of. fold bucket.
    eexists. split; [reflexivity|]. split; [done|].
    split; [apply in_bucket_inserted_row|]. simpl. split.
    + intros ->. done.
    + intros Hne. destruct (max_rank bucket) as [m|] eqn:Hm.
      * apply max_rank_Some in Hm as [(r & Hr & <-) Hall]. split; [eauto|].
        intros r' Hr'. specialize (Hall _ Hr'). lia.
      * by apply max_rank_None in Hm.
  - intros u1 u2 u3 a1 a2 a3 d y s db Hempty Hfresh Hnodup Hsame db1 db2 db3.
    destruct (Hsame a1) as (D1 & Y1 & S1); [set_solver|].
    destruct (Hsame a2) as (D2 & Y2 & S2); [set_solver|].
    destruct (Hsame a3) as (D3 & Y3 & S3); [set_solver|].
    apply NoDup_cons in Hnodup as [Hu1 Hnodup].
    apply NoDup_cons in Hnodup as [Hu2 _].
    assert (filter (in_bucket d y s) (appointments db) = []) as Hb0
      by (by apply filter_empty_iff).
    assert (db1 = with_appointments (appointments db ++ [inserted_row u1 a1 1]) db) as E1.
    { unfold db1, store. rewrite create_appointment_run.
      - unfold bucket_of. rewrite D1, Y1, S1, Hb0. done.
      - intros r Hr Hid. apply (Hfresh _ Hr). set_solver. }
    assert (db2 = with_appointments
              (appointments db ++ [inserted_row u1 a1 1; inserted_row u2 a2 2]) db) as E2.
    { unfold db2, store. rewrite create_appointment_run.
      - unfold bucket_of. rewrite D2, Y2, S2, E1. simpl.
        rewrite filter_snoc_True, Hb0 by (by rewrite <- D1, <- Y1, <- S1).
        simpl. unfold with_appointments. simpl. by rewrite <- app_assoc.
      - rewrite E1. simpl. intros r [Hr| ->%list_elem_of_singleton]%elem_of_app Hid.
        + apply (Hfresh _ Hr). set_solver.
        + simpl in Hid. set_solver. }
    assert (db3 = with_appointments
              (appointments db ++
               [inserted_row u1 a1 1; inserted_row u2 a2 2; inserted_row u3 a3 3]) db) as E3.
    { unfold db3, store. rewrite create_appointment_run.
      - unfold bucket_of. rewrite D3, Y3, S3, E2. simpl.
        change [inserted_row u1 a1 1; inserted_row u2 a2 2]
          with ([inserted_row u1 a1 1] ++ [inserted_row u2 a2 2]).
        rewrite app_assoc.
        rewrite filter_snoc_True by (by rewrite <- D2, <- Y2, <- S2).
        rewrite filter_snoc_True, Hb0 by (by rewrite <- D1, <- Y1, <- S1).
        simpl. unfold with_appointments. simpl. by rewrite <- !app_assoc.
      - rewrite E2. simpl. intros r [Hr|Hr]%elem_of_app Hid.
        + apply (Hfresh _ Hr). set_solver.
        + apply elem_of_cons in Hr as [->|Hr%list_elem_of_singleton];
            [|subst r]; simpl in Hid; set_solver. }
    exists (inserted_row u1 a1 1), (inserted_row u2 a2 2), (inserted_row u3 a3 3).
    rewrite E3. done.
Qed.

Lemma create_appointment_response uuid4 appt db :
  (∀ r, r ∈ appointments db → AppointmentRow.id r ≠ uuid4) →
  ∃ ret row,
    response (create_appointment uuid4 appt) db = Ok ret ∧
    appointments (store (create_appointment uuid4 appt) db) = appointments db ++ [row] ∧
    Appointment.id ret = Some (AppointmentRow.id row) ∧
    Appointment.rank ret = Appointment.rank appt ∧
    AppointmentRow.rank row =
      (match max_rank (bucket_of appt db) with Some m => m | None => 0 end) + 1.
Proof.
  intros Hfresh. unfold response, store. rewrite create_appointment_run by done.
  simpl. eexists _, _. split_and!; reflexivity.
Qed.

(** C2, evaluated: the first appointment of an empty database, submitted
    with the default rank 0, is stored with rank 1 and returned with
    rank 0: the response carries the rank the caller sent, not the rank
    that was assigned. *)
Theorem create_appointment_returns_submitted_rank :
  let appt := Appointment.mk None "d1" "Mon" "Morning" "Ann" "r5" "30" "checkup" None 0 in
  ∃ ret row,
    response (create_appointment "u1" appt) init_db = Ok ret ∧
    appointments (store (create_appointment "u1" appt) init_db) = [row] ∧
    Appointment.id ret = Some (AppointmentRow.id row) ∧
    AppointmentRow.rank row = 1 ∧
    Appointment.rank ret = 0 ∧
    Appointment.rank ret ≠ AppointmentRow.rank row.
Proof.
  intros appt. eexists _, _. split_and!; [reflexivity | reflexivity | done..].
Qed.

(** ** Accepting a connection request *)

Lemma insert_or_ignore_matches_run row db :
  insert_or_ignore_matches row db = (Ok tt, with_matches (matches db ∪ {[ row ]}) db).
Proof.
  unfold insert_or_ignore_matches. destruct (decide (row ∈ matches db)) as [Hin|]; [|done].
  f_equal. destruct db; unfold with_matches; simpl in *. f_equal. set_solver.
Qed.

(** C5. [accept_match] on an id that no request carries fails with 404 and
    leaves the database as it was.  On the id of a stored request it
    answers "Matched" and deletes every request of that id; if a
    practitioner has the request's student id, the connection table gains
    the pairs (target, sender) and (sender, target) and nothing else, pairs
    already present staying as they are; if none has, the connection table
    is unchanged.  No other table changes. *)
Theorem accept_match_links_both_ways_and_deletes_request req_id db :
  let db' := store (accept_match req_id) db in
  ((∀ r, r ∈ match_requests db → MatchRequestRow.id r ≠ req_id) →
     response (accept_match req_id) db = Raise (HTTPException 404 None) ∧ db' = db) ∧
  ((∃ r, r ∈ match_requests db ∧ MatchRequestRow.id r = req_id) →
     ∃ req, req ∈ match_requests db ∧ MatchRequestRow.id req = req_id ∧
       response (accept_match req_id) db = Ok "Matched" ∧
       match_requests db' = filter (λ r, MatchRequestRow.id r ≠ req_id) (match_requests db) ∧
       (∀ r, r ∈ match_requests db' → MatchRequestRow.id r ≠ req_id) ∧
       with_matches (matches db) (with_match_requests (match_requests db) db') = db ∧
       matches db ⊆ matches db' ∧
       ((∀ d, d ∈ doctors db →
           DoctorRow.student_id d ≠ MatchRequestRow.to_student_id req) →
          matches db' = matches db) ∧
       ((∃ d, d ∈ doctors db ∧
              DoctorRow.student_id d = MatchRequestRow.to_student_id req) →
          ∃ target, target ∈ doctors db ∧
            DoctorRow.student_id target = MatchRequestRow.to_student_id req ∧
            (∀ row, row ∈ matches db' ↔
               row ∈ matches db ∨
               row = (DoctorRow.id target, MatchRequestRow.from_id req) ∨
               row = (MatchRequestRow.from_id req, DoctorRow.id target)) ∧
            ((DoctorRow.id target, MatchRequestRow.from_id req) ∈ matches db →
             (MatchRequestRow.from_id req, DoctorRow.id target) ∈ matches db →
             matches db' = matches db))).
Proof.
  intros db'. subst db'. unfold response, store, accept_match. split.
  - intros Hnone. run_endpoint.
    assert (head (filter (λ r, MatchRequestRow.id r = req_id) (match_requests db)) = None)
      as -> by (by apply fetchone_None).
    done.
  - intros Hsome. run_endpoint.
    destruct (head (filter (λ r, MatchRequestRow.id r = req_id) (match_requests db)))
      as [req|] eqn:Hreq.
    2:{ destruct Hsome as (r & Hr & Hid).
        rewrite fetchone_None in Hreq. by destruct (Hreq r Hr). }
    apply fetchone_Some in Hreq as [Hin Hid].
    exists req. split; [done|]. split; [done|].
    destruct (head (filter
                      (λ r, DoctorRow.student_id r = MatchRequestRow.to_student_id req)
                      (doctors db))) as [target|] eqn:Htarget.
    + apply fetchone_Some in Htarget as [Htin Hsid].
      rewrite !insert_or_ignore_matches_run. simpl.
      split_and!; [done | done | | by destruct db | set_solver | |].
      * intros r [Hne _]%list_elem_of_filter. done.
      * intros Hno. by destruct (Hno target Htin).
      * intros _. exists target. split_and!; [done | done | set_solver |].
        intros H1 H2. apply set_eq. set_solver.
    + rewrite fetchone_None in Htarget. simpl.
      split_and!; [done | done | | by destruct db | done | done |].
      * intros r [Hne _]%list_elem_of_filter. done.
      * intros (d & Hd & Hsid). by destruct (Htarget d Hd).
Qed.

(** ** Display colors *)

Lemma length_append (s1 s2 : string) :
  String.length (s1 +:+ s2) = (String.length s1 + String.length s2)%nat.
Proof. induction s1 as [|c s1 IH]; simpl; [done|]. by rewrite IH. Qed.

Lemma length_zeros k : String.length (zeros k) = k.
Proof. induction k as [|k IH]; simpl; [done|]. by rewrite IH. Qed.

Lemma hex_digits_length fuel (n : N) acc (k : nat) :
  (n < 16 ^ N.of_nat k)%N → (0 < k)%nat →
  (String.length (hex_digits fuel n acc) ≤ k + String.length acc)%nat.
Proof.
  revert n acc k. induction fuel as [|fuel IH]; intros n acc k Hn Hk; simpl; [lia|].
  destruct (N.eqb_spec (n / 16) 0) as [Hz|Hnz]; simpl; [lia|].
  destruct k as [|[|k]]; [lia| |].
  - exfalso. apply Hnz. apply N.div_small. exact Hn.
  - specialize (IH (n / 16)%N (String (hex_digit (n mod 16)) acc) (S k)).
    simpl in IH. etrans; [apply IH; [|lia]|lia].
    apply N.Div0.div_lt_upper_bound.
    replace (N.of_nat (S (S k))) with (N.succ (N.of_nat (S k))) in Hn by lia.
    by rewrite N.pow_succ_r' in Hn.
Qed.

(** A color drawn from [0, 0xFFFFFF] is [#] followed by six characters. *)
Lemma get_random_color_length (randint : N) :
  (randint ≤ 0xFFFFFF)%N → String.length (get_random_color randint) = 7%nat.
Proof.
  intros Hle. unfold get_random_color, format_06x. rewrite length_append.
  set (digits := hex_digits _ _ _). change (String.length "#") with 1%nat.
  assert (String.length digits ≤ 6)%nat as Hd.
  { etrans; [apply (hex_digits_length _ _ "" 6)|simpl; lia].
    - change (16 ^ N.of_nat 6)%N with 16777216%N. lia.
    - lia. }
  rewrite length_append, length_zeros. lia.
Qed.

Lemma append_cons (x : ascii) (a b : string) : String x a +:+ b = String x (a +:+ b).
Proof. reflexivity. Qed.

Lemma append_assoc (a b c : string) : (a +:+ b) +:+ c = a +:+ (b +:+ c).
Proof. induction a as [|x a IH]; [done|]. by rewrite !append_cons, IH. Qed.

Lemma append_empty_r (a : string) : a +:+ "" = a.
Proof. induction a as [|x a IH]; [done|]. by rewrite append_cons, IH. Qed.

Lemma chars_append (a b : string) : chars (a +:+ b) = chars a ++ chars b.
Proof.
  unfold chars. induction a as [|x a IH]; [done|].
  rewrite append_cons. simpl. by rewrite IH.
Qed.

Ltac hex_digit_cases d :=
  let p := fresh "p" in
  destruct d as [|p]; [|do 4 (try destruct p as [p|p|])].

Lemma hex_digit_value_digit (d : N) : (d < 16)%N → hex_digit_value (hex_digit d) = d.
Proof. intros Hd. hex_digit_cases d; try reflexivity; lia. Qed.

Lemma hex_digit_is_hex (d : N) : hex_digit d ∈ chars "0123456789abcdef".
Proof. hex_digit_cases d; unfold chars; simpl; repeat constructor. Qed.

Lemma hex_value_from_digits fuel (n : N) acc :
  (n < 16 ^ N.of_nat fuel)%N →
  hex_value_from 0 (hex_digits fuel n acc) = hex_value_from n acc.
Proof.
  revert n acc. induction fuel as [|fuel IH]; intros n acc Hn.
  - simpl in *. by replace n with 0%N by lia.
  - simpl. destruct (N.eqb_spec (n / 16) 0) as [Hz|Hnz].
    + simpl. rewrite hex_digit_value_digit by (apply N.mod_lt; lia).
      rewrite N.mod_small; [done|]. by apply N.div_small_iff.
    + rewrite IH.
      * simpl. rewrite hex_digit_value_digit by (apply N.mod_lt; lia).
        f_equal. symmetry. apply N.div_mod. lia.
      * apply N.Div0.div_lt_upper_bound.
        replace (N.of_nat (S fuel)) with (N.succ (N.of_nat fuel)) in Hn by lia.
        by rewrite N.pow_succ_r' in Hn.
Qed.

Lemma hex_value_from_zeros k s : hex_value_from 0 (zeros k +:+ s) = hex_value_from 0 s.
Proof. induction k as [|k IH]; [done|]. simpl zeros. by rewrite append_cons. Qed.

Lemma hex_value_format_06x (n : N) : hex_value_from 0 (format_06x n) = n.
Proof.
  unfold format_06x. cbv zeta. rewrite hex_value_from_zeros.
  rewrite hex_value_from_digits; [done|].
  destruct n as [|p]; [done|].
  pose proof (N.log2_spec (N.pos p) eq_refl) as [_ Hlt].
  eapply N.lt_le_trans; [exact Hlt|].
  rewrite Nat2N.inj_succ, N2Nat.id.
  apply N.pow_le_mono_l. lia.
Qed.

Lemma hex_digits_are_hex fuel (n : N) acc :
  (∀ c, c ∈ chars acc → c ∈ chars "0123456789abcdef") →
  ∀ c, c ∈ chars (hex_digits fuel n acc) → c ∈ chars "0123456789abcdef".
Proof.
  revert n acc. induction fuel as [|fuel IH]; intros n acc Hacc; [done|].
  assert (∀ c, c ∈ chars (String (hex_digit (n mod 16)) acc) →
               c ∈ chars "0123456789abcdef") as Hacc'.
  { intros c [->|Hc]%elem_of_cons; [apply hex_digit_is_hex|by apply Hacc]. }
  simpl. destruct (n / 16 =? 0)%N; [done|]. by apply IH.
Qed.

Lemma zeros_are_hex k c : c ∈ chars (zeros k) → c ∈ chars "0123456789abcdef".
Proof.
  induction k as [|k IH]; unfold chars; simpl.
  - intros Hc. by apply elem_of_nil in Hc.
  - intros [->|Hc]%elem_of_cons; [left|by apply IH].
Qed.

(** The color is the draw written with six hexadecimal digits, and can
    be read back from it. *)
Lemma get_random_color_digits (randint : N) :
  (randint ≤ 0xFFFFFF)%N →
  ∃ digits,
    get_random_color randint = String "#" digits ∧
    String.length digits = 6%nat ∧
    (∀ c, c ∈ chars digits → c ∈ chars "0123456789abcdef") ∧
    hex_value_from 0 digits = randint.
Proof.
  intros Hn. exists (format_06x randint). split; [done|]. split_and!.
  - pose proof (get_random_color_length randint Hn) as Hlen.
    unfold get_random_color in Hlen. rewrite length_append in Hlen.
    simpl in Hlen. lia.
  - intros c. unfold format_06x. cbv zeta. rewrite chars_append.
    intros [Hc|Hc]%elem_of_app; [by eapply zeros_are_hex|].
    eapply hex_digits_are_hex; [|exact Hc].
    intros c' Hc'. by apply elem_of_nil in Hc'.
  - apply hex_value_format_06x.
Qed.

(** Distinct draws give distinct colors. *)
Lemma get_random_color_inj (n m : N) : get_random_color n = get_random_color m → n = m.
Proof.
  intros Heq. unfold get_random_color in Heq.
  rewrite !append_cons in Heq. injection Heq as Heq.
  change ("" +:+ format_06x n) with (format_06x n) in Heq.
  change ("" +:+ format_06x m) with (format_06x m) in Heq.
  by rewrite <- (hex_value_format_06x n), <- (hex_value_format_06x m), Heq.
Qed.

(** ** Registration and login *)

Lemma get_matches_list_spec doctor_id db :
  ∃ ms, get_matches_list doctor_id db = (Ok ms, db) ∧
    (∀ t, t ∈ ms ↔ (doctor_id, t) ∈ matches db) ∧ NoDup ms.
Proof.
  eexists. split; [reflexivity|]. split.
  - intros t. rewrite list_elem_of_fmap. split.
    + intros ([d t'] & -> & [Hd Hin]%list_elem_of_filter). simpl in *. subst d.
      by apply elem_of_elements in Hin.
    + intros Hin. exists (doctor_id, t). split; [done|].
      apply list_elem_of_filter. split; [done|]. by apply elem_of_elements.
  - apply NoDup_fmap_2_strong.
    + intros [d1 t1] [d2 t2] [Hd1 _]%list_elem_of_filter [Hd2 _]%list_elem_of_filter.
      simpl in *. congruence.
    + apply NoDup_filter, NoDup_elements.
Qed.

Lemma register_run_conflict uuid4 randint doctor db :
  (∃ d, d ∈ doctors db ∧ DoctorRow.student_id d = Doctor.student_id doctor) →
  register uuid4 randint doctor db =
  (Raise (HTTPException 400 (Some "Student ID already exists")), db).
Proof.
  intros (d & Hd & Hsid). unfold register. run_endpoint.
  destruct (head (filter _ (doctors db))) as [e|] eqn:He; [done|].
  rewrite fetchone_None in He. by destruct (He d Hd).
Qed.

Lemma register_run_fresh uuid4 randint doctor db :
  (∀ d, d ∈ doctors db → DoctorRow.student_id d ≠ Doctor.student_id doctor) →
  (∀ d, d ∈ doctors db → DoctorRow.id d ≠ uuid4) →
  register uuid4 randint doctor db =
  (Ok (Doctor.set_color (get_random_color randint) (Doctor.set_id (Some uuid4) doctor)),
   with_doctors (doctors db ++ [registered_row uuid4 randint doctor]) db).
Proof.
  intros Hsid Hid. unfold register, insert_doctors. run_endpoint.
  assert (head (filter (λ r, DoctorRow.student_id r = Doctor.student_id doctor)
                       (doctors db)) = None) as -> by (by apply fetchone_None).
  simpl. rewrite decide_False; [done|].
  rewrite Exists_exists. intros (d & Hd & [Heq|Heq]); [by eapply Hid|by eapply Hsid].
Qed.

(** A successful [register] means that neither the student id nor the
    generated id was in the table. *)
Lemma register_Ok_inv uuid4 randint doctor db ret :
  response (register uuid4 randint doctor) db = Ok ret →
  (∀ d, d ∈ doctors db → DoctorRow.student_id d ≠ Doctor.student_id doctor) ∧
  (∀ d, d ∈ doctors db → DoctorRow.id d ≠ uuid4).
Proof.
  unfold register, insert_doctors. run_endpoint.
  destruct (head (filter _ (doctors db))) as [e|] eqn:He; [done|].
  rewrite fetchone_None in He. simpl.
  destruct (decide (Exists _ (doctors db))) as [|Hnot]; [done|]. intros _.
  rewrite Exists_exists in Hnot. split; [done|].
  intros d Hd Hid. apply Hnot. eauto.
Qed.

Lemma login_run_Some creds db doc :
  head (filter (λ r, DoctorRow.student_id r = LoginRequest.student_id creds ∧
                     DoctorRow.password r = LoginRequest.password creds) (doctors db))
  = Some doc →
  ∃ ms, login creds db = (Ok (doc, ms), db) ∧
    (∀ t, t ∈ ms ↔ (DoctorRow.id doc, t) ∈ matches db) ∧ NoDup ms.
Proof.
  intros Hdoc.
  destruct (get_matches_list_spec (DoctorRow.id doc) db) as (ms & Hms & Hspec).
  exists ms. split; [|done].
  unfold login, get_matches_list in *. run_endpoint. rewrite Hdoc. simpl.
  by injection Hms as <-.
Qed.

Lemma login_run_None creds db :
  (∀ d, d ∈ doctors db →
     ¬ (DoctorRow.student_id d = LoginRequest.student_id creds ∧
        DoctorRow.password d = LoginRequest.password creds)) →
  login creds db = (Raise (HTTPException 401 (Some "Invalid credentials")), db).
Proof.
  intros Hnone. unfold login. run_endpoint.
  assert (head (filter (λ r, DoctorRow.student_id r = LoginRequest.student_id creds ∧
                             DoctorRow.password r = LoginRequest.password creds)
                       (doctors db)) = None) as -> by (by apply fetchone_None).
  done.
Qed.

Lemma fetchone_refine {A} (P Q : A → Prop) `{!∀ x, Decision (P x)} `{!∀ x, Decision (Q x)}
    (l : list A) (x : A) :
  head (filter P l) = Some x → (∀ y, Q y → P y) → Q x → head (filter Q l) = Some x.
Proof.
  intros Hx HQP HQ. induction l as [|h t IH]; [done|].
  rewrite filter_cons in Hx. destruct (decide (P h)) as [HP|HnP].
  - simpl in Hx. injection Hx as ->. by rewrite filter_cons_True.
  - rewrite filter_cons_False by (intros HQh; by apply HnP, HQP). by apply IH.
Qed.

(** C6. [register] with a student id that a stored practitioner already
    has fails with status 400 and changes nothing, and that practitioner
    can still log in.  With a new student id (and a generated id that is
    not in use) the profile is stored as a new row and returned; what is
    returned and stored carries the generated id and the color made from
    the random draw, and is otherwise the submitted profile.  The color
    is the draw itself in writing: [#] and the six hexadecimal digits of
    the number drawn from 0 to 0xFFFFFF, so that every draw has a color of
    its own and the color is as random as the draw. *)
Theorem register_conflict_or_persist uuid4 randint doctor db :
  let db' := store (register uuid4 randint doctor) db in
  ((∃ d, d ∈ doctors db ∧ DoctorRow.student_id d = Doctor.student_id doctor) →
     response (register uuid4 randint doctor) db =
       Raise (HTTPException 400 (Some "Student ID already exists")) ∧
     db' = db ∧
     ∃ first ms,
       first ∈ doctors db' ∧
       DoctorRow.student_id first = Doctor.student_id doctor ∧
       response (login (LoginRequest.mk (DoctorRow.student_id first)
                                        (DoctorRow.password first))) db'
       = Ok (first, ms)) ∧
  ((∀ d, d ∈ doctors db → DoctorRow.student_id d ≠ Doctor.student_id doctor) →
   (∀ d, d ∈ doctors db → DoctorRow.id d ≠ uuid4) →
     ∃ ret row,
       response (register uuid4 randint doctor) db = Ok ret ∧
       doctors db' = doctors db ++ [row] ∧
       with_doctors (doctors db) db' = db ∧
       Doctor.id ret = Some uuid4 ∧
       Doctor.color ret = get_random_color randint ∧
       ((randint ≤ 0xFFFFFF)%N → String.length (Doctor.color ret) = 7%nat) ∧
       (∀ n, get_random_color n = Doctor.color ret → n = randint) ∧
       ((randint ≤ 0xFFFFFF)%N →
          ∃ digits,
            Doctor.color ret = String "#" digits ∧
            String.length digits = 6%nat ∧
            (∀ c, c ∈ chars digits → c ∈ chars "0123456789abcdef") ∧
            hex_value_from 0 digits = randint) ∧
       Doctor.set_color (Doctor.color doctor) (Doctor.set_id (Doctor.id doctor) ret)
       = doctor ∧
       row = DoctorRow.mk uuid4 (Doctor.student_id ret) (Doctor.username ret)
               (Doctor.password ret) (Doctor.color ret) (Doctor.phone ret)
               (Doctor.country_code ret)).
Proof.
  intros db'. subst db'. unfold response, store. split.
  - intros Hex. rewrite register_run_conflict by done. simpl.
    split; [done|]. split; [done|].
    destruct (head (filter (λ r, DoctorRow.student_id r = Doctor.student_id doctor)
                           (doctors db))) as [first|] eqn:Hfirst.
    2:{ destruct Hex as (d & Hd & Hsid). rewrite fetchone_None in Hfirst.
        by destruct (Hfirst d Hd). }
    pose proof (fetchone_Some _ _ _ Hfirst) as [Hin Hsid].
    destruct (login_run_Some
                (LoginRequest.mk (DoctorRow.student_id first) (DoctorRow.password first))
                db first) as (ms & Hlogin & _).
    { simpl. eapply fetchone_refine; [exact Hfirst| |done].
      simpl. intros y [Hy _]. congruence. }
    exists first, ms. by rewrite Hlogin.
  - intros Hsid Hid. rewrite register_run_fresh by done. simpl.
    eexists _, _. split_and!; try reflexivity.
    + by destruct db.
    + intros Hle. by apply get_random_color_length.
    + intros n Hn. by apply get_random_color_inj.
    + intros Hle. by apply get_random_color_digits.
    + by destruct doctor.
Qed.

(** C7. [login] leaves the database alone and has one way to fail: status
    401, which it answers exactly when no stored practitioner has both the
    given student id and the given password.  Otherwise it returns such a
    practitioner's row together with the target ids that the connection
    table holds for that practitioner's id, each once. *)
Theorem login_unauthorized_iff_no_exact_match creds db :
  store (login creds) db = db ∧
  (response (login creds) db = Raise (HTTPException 401 (Some "Invalid credentials")) ↔
   ¬ ∃ d, d ∈ doctors db ∧
          DoctorRow.student_id d = LoginRequest.student_id creds ∧
          DoctorRow.password d = LoginRequest.password creds) ∧
  (∀ e, response (login creds) db = Raise e →
        e = HTTPException 401 (Some "Invalid credentials")) ∧
  ((∃ d, d ∈ doctors db ∧
         DoctorRow.student_id d = LoginRequest.student_id creds ∧
         DoctorRow.password d = LoginRequest.password creds) →
   ∃ doc ms,
     response (login creds) db = Ok (doc, ms) ∧
     doc ∈ doctors db ∧
     DoctorRow.student_id doc = LoginRequest.student_id creds ∧
     DoctorRow.password doc = LoginRequest.password creds ∧
     (∀ t, t ∈ ms ↔ (DoctorRow.id doc, t) ∈ matches db) ∧
     NoDup ms).
Proof.
  unfold response, store.
  destruct (head (filter (λ r, DoctorRow.student_id r = LoginRequest.student_id creds ∧
                               DoctorRow.password r = LoginRequest.password creds)
                         (doctors db))) as [doc|] eqn:Hdoc.
  - destruct (login_run_Some creds db doc Hdoc) as (ms & -> & Hms & Hnodup). simpl.
    apply fetchone_Some in Hdoc as (Hin & Hsid & Hpw).
    split_and!; [done | | done |].
    + split; [done|]. intros Hno. destruct Hno. eauto.
    + intros _. exists doc, ms. done.
  - rewrite fetchone_None in Hdoc. rewrite login_run_None by done. simpl.
    split_and!; [done | | congruence |].
    + split; [|done]. intros _ (d & Hd & Hsid & Hpw). by apply (Hdoc d Hd).
    + intros (d & Hd & Hsid & Hpw). by destruct (Hdoc d Hd).
Qed.

(** ** Create, then read *)

Lemma add_patient_Ok_inv uuid4 p db ret :
  response (add_patient uuid4 p) db = Ok ret →
  (∀ r, r ∈ patients db → PatientRow.id r ≠ uuid4) ∧
  patients (store (add_patient uuid4 p) db) =
    patients db ++ [PatientRow.mk uuid4 (Patient.doctor_id p) (Patient.name p)
                      (Some (or_empty (Patient.r4 p)))].
Proof.
  unfold add_patient, insert_patients. run_endpoint.
  destruct (decide (Exists _ (patients db))) as [|Hnot]; [done|]. intros _.
  split; [|done]. rewrite Exists_exists in Hnot.
  intros r Hr Hid. apply Hnot. eauto.
Qed.

Lemma create_appointment_Ok_inv uuid4 appt db ret :
  response (create_appointment uuid4 appt) db = Ok ret →
  ∀ r, r ∈ appointments db → AppointmentRow.id r ≠ uuid4.
Proof.
  intros Hok r Hr Hid. unfold response in Hok.
  by rewrite (create_appointment_collision _ _ _ r) in Hok.
Qed.

Lemma or_empty_Some s : or_empty (Some s) = s.
Proof. by destruct s. Qed.

(** C8, as the claim has it, fails: a practitioner registered with the
    color [#3b82f6] and the connection list [x] reads back with the color
    drawn at registration and no connection, and a patient added without a
    secondary identifier reads back with the empty string as one. *)
Lemma round_trip_fails_on_color_and_omitted_r4 :
  let doctor := Doctor.mk None "s1" "ann" "pw" "#3b82f6" ["x"] None None in
  let p := Patient.mk None "d1" "Bob" None in
  (∃ ret doc ms,
      response (register "u1" 0 doctor) init_db = Ok ret ∧
      response (get_me "u1") (store (register "u1" 0 doctor) init_db) = Ok (doc, ms) ∧
      DoctorRow.color doc = "#000000" ∧
      DoctorRow.color doc ≠ Doctor.color doctor ∧
      ms = [] ∧
      ms ≠ Doctor.matches doctor) ∧
  (∃ ret row,
      response (add_patient "p1" p) init_db = Ok ret ∧
      response (get_patients "d1") (store (add_patient "p1" p) init_db) = Ok [row] ∧
      PatientRow.r4 row = Some "" ∧
      PatientRow.r4 row ≠ Patient.r4 p).
Proof.
  intros doctor p. split.
  - eexists _, _, _. split_and!; [reflexivity | vm_compute; reflexivity | done..].
  - eexists _, _. split_and!; [reflexivity | vm_compute; reflexivity | done..].
Qed.

Lemma get_me_run_Some id db doc :
  head (filter (λ r, DoctorRow.id r = id) (doctors db)) = Some doc →
  ∃ ms, get_me id db = (Ok (doc, ms), db) ∧ (∀ t, t ∈ ms ↔ (id, t) ∈ matches db).
Proof.
  intros Hdoc.
  destruct (get_matches_list_spec id db) as (ms & Hms & Hspec & _).
  exists ms. split; [|done].
  unfold get_me, get_matches_list in *. run_endpoint. rewrite Hdoc. simpl.
  by injection Hms as <-.
Qed.

Lemma fetchone_appended {A} (P : A → Prop) `{!∀ x, Decision (P x)} (l : list A) (x : A) :
  (∀ y, y ∈ l → ¬ P y) → P x → head (filter P (l ++ [x])) = Some x.
Proof.
  intros Hl Hx. rewrite filter_snoc_True by done.
  by rewrite (proj2 (filter_empty_iff P l)).
Qed.

(** C8, amended. After a successful create the matching read gives back
    the submitted values in every field, except for: the generated id; the
    computed rank of an appointment; the color of a practitioner, which is
    the one drawn at registration; the connection list of a practitioner,
    which is read from the connection table and not stored from the
    profile; and the secondary identifier of a patient when it was
    omitted, which reads back as the empty string. *)
Theorem create_then_read_round_trip :
  (∀ uuid4 randint doctor db ret,
     response (register uuid4 randint doctor) db = Ok ret →
     let db' := store (register uuid4 randint doctor) db in
     ∃ doc ms ms',
       response (get_me uuid4) db' = Ok (doc, ms) ∧
       response (login (LoginRequest.mk (Doctor.student_id doctor)
                                        (Doctor.password doctor))) db' = Ok (doc, ms') ∧
       DoctorRow.id doc = uuid4 ∧
       DoctorRow.student_id doc = Doctor.student_id doctor ∧
       DoctorRow.username doc = Doctor.username doctor ∧
       DoctorRow.password doc = Doctor.password doctor ∧
       DoctorRow.phone doc = Doctor.phone doctor ∧
       DoctorRow.country_code doc = Doctor.country_code doctor ∧
       DoctorRow.color doc = get_random_color randint ∧
       (∀ t, t ∈ ms ↔ (uuid4, t) ∈ matches db) ∧
       (∀ t, t ∈ ms' ↔ (uuid4, t) ∈ matches db)) ∧
  (∀ uuid4 p db ret,
     response (add_patient uuid4 p) db = Ok ret →
     let db' := store (add_patient uuid4 p) db in
     ∃ rows row,
       response (get_patients (Patient.doctor_id p)) db' = Ok rows ∧
       row ∈ rows ∧
       (∀ r, r ∈ rows → PatientRow.id r = uuid4 → r = row) ∧
       PatientRow.id row = uuid4 ∧
       PatientRow.doctor_id row = Patient.doctor_id p ∧
       PatientRow.name row = Patient.name p ∧
       (∀ s, Patient.r4 p = Some s → PatientRow.r4 row = Some s) ∧
       (Patient.r4 p = None → PatientRow.r4 row = Some "")) ∧
  (∀ uuid4 appt db ret doctor_ids,
     response (create_appointment uuid4 appt) db = Ok ret →
     Appointment.doctor_id appt ∈ split "," doctor_ids →
     let db' := store (create_appointment uuid4 appt) db in
     ∃ rows row,
       response (get_appointments doctor_ids) db' = Ok rows ∧
       row ∈ rows ∧
       (∀ r, r ∈ rows → AppointmentRow.id r = uuid4 → r = row) ∧
       AppointmentRow.id row = uuid4 ∧
       AppointmentRow.doctor_id row = Appointment.doctor_id appt ∧
       AppointmentRow.day row = Appointment.day appt ∧
       AppointmentRow.session row = Appointment.session appt ∧
       AppointmentRow.patient_name row = Appointment.patient_name appt ∧
       AppointmentRow.patient_r4 row = Appointment.patient_r4 appt ∧
       AppointmentRow.duration row = Appointment.duration appt ∧
       AppointmentRow.type row = Appointment.type appt ∧
       AppointmentRow.other_type_details row = Appointment.other_type_details appt).
Proof.
  split_and!.
  - intros uuid4 randint doctor db ret Hok db'.
    apply register_Ok_inv in Hok as [Hsid Hid].
    assert (db' = with_doctors (doctors db ++ [registered_row uuid4 randint doctor]) db)
      as -> by (unfold db', store; by rewrite register_run_fresh).
    set (row := registered_row uuid4 randint doctor).
    destruct (get_me_run_Some uuid4
                (with_doctors (doctors db ++ [row]) db) row) as (ms & Hme & Hms).
    { simpl. by apply fetchone_appended. }
    destruct (login_run_Some
                (LoginRequest.mk (Doctor.student_id doctor) (Doctor.password doctor))
                (with_doctors (doctors db ++ [row]) db) row) as (ms' & Hlogin & Hms' & _).
    { simpl. apply fetchone_appended; [|done]. intros y Hy [Hs _]. by apply (Hsid y). }
    exists row, ms, ms'. unfold response. rewrite Hme, Hlogin. simpl.
    split_and!; done.
  - intros uuid4 p db ret Hok db'.
    apply add_patient_Ok_inv in Hok as [Hfresh Hstore]. fold db' in Hstore.
    set (row := PatientRow.mk uuid4 (Patient.doctor_id p) (Patient.name p)
                  (Some (or_empty (Patient.r4 p)))) in *.
    exists (filter (λ r, PatientRow.doctor_id r = Patient.doctor_id p) (patients db)
            ++ [row]), row.
    split; [unfold response, get_patients, connect, query; simpl;
            rewrite Hstore; by rewrite filter_snoc_True|].
    split_and!; [set_solver | | done | done | done | |].
    + intros r [Hr| ->%list_elem_of_singleton]%elem_of_app Hid; [|done].
      apply list_elem_of_filter in Hr as [_ Hr]. by destruct (Hfresh r Hr).
    + intros s Hs. unfold row. simpl. by rewrite Hs, or_empty_Some.
    + intros Hnone. unfold row. simpl. by rewrite Hnone.
  - intros uuid4 appt db ret doctor_ids Hok Hsel db'.
    pose proof (create_appointment_Ok_inv _ _ _ _ Hok) as Hfresh.
    unfold response. rewrite get_appointments_run. simpl.
    unfold db', store. rewrite create_appointment_run by done. simpl.
    rewrite filter_snoc_True by done.
    set (row := inserted_row uuid4 appt _).
    exists (order_by_rank
              (filter (λ r, AppointmentRow.doctor_id r ∈ split "," doctor_ids)
                      (appointments db) ++ [row])), row.
    split; [reflexivity|].
    split_and!; [apply elem_of_order_by_rank; set_solver | | done..].
    intros r Hr Hid. rewrite elem_of_order_by_rank in Hr.
    apply elem_of_app in Hr as [Hr| ->%list_elem_of_singleton]; [|done].
    apply list_elem_of_filter in Hr as [_ Hr]. by destruct (Hfresh r Hr).
Qed.

(** ** The theorems at the sample data *)

Lemma appointments_monday_morning :
  appointments monday_morning =
  [inserted_row "a" (visit "Al") 1; inserted_row "b" (visit "Bea") 2;
   inserted_row "c" (visit "Cy") 3].
Proof. reflexivity. Qed.

(** C1 at the sample data: three visits created in the empty Monday
    morning bucket of practitioner d1. *)
Lemma three_visits_get_ranks_1_2_3 :
  (∀ r, r ∈ appointments init_db → ¬ in_bucket "d1" "Mon" "Morning" r) ∧
  NoDup ["a"; "b"; "c"] ∧
  ∃ r1 r2 r3,
    appointments monday_morning = [r1; r2; r3] ∧
    AppointmentRow.id r1 = "a" ∧ AppointmentRow.rank r1 = 1 ∧
    AppointmentRow.id r2 = "b" ∧ AppointmentRow.rank r2 = 2 ∧
    AppointmentRow.id r3 = "c" ∧ AppointmentRow.rank r3 = 3.
Proof.
  assert (∀ r, r ∈ appointments init_db → ¬ in_bucket "d1" "Mon" "Morning" r) as Hempty.
  { simpl. intros r Hr. by apply elem_of_nil in Hr. }
  assert (NoDup ["a"; "b"; "c"]) as Hnodup.
  { apply NoDup_ListNoDup. repeat constructor; simpl; intuition discriminate. }
  split; [exact Hempty|]. split; [exact Hnodup|].
  apply (proj2 create_appointment_rank_is_max_plus_one
           "a" "b" "c" (visit "Al") (visit "Bea") (visit "Cy") "d1" "Mon" "Morning" init_db).
  - exact Hempty.
  - simpl. intros r Hr. by apply elem_of_nil in Hr.
  - exact Hnodup.
  - intros a Ha. repeat (apply elem_of_cons in Ha as [->|Ha]; [done|]).
    by apply elem_of_nil in Ha.
Defined.

(** C3 at the sample data: the bucket a, b, c reordered to c, a, b. *)
Lemma reorder_c_a_b_lists_c_a_b :
  let db' := store (reorder_appointments (ReorderRequest.mk ["c"; "a"; "b"]))
                   monday_morning in
  ∃ l1 l2 l3 l4,
    response (get_appointments "d1") db' =
    Ok (l1 ++ AppointmentRow.set_rank 0 (inserted_row "c" (visit "Cy") 3)
           :: l2 ++ AppointmentRow.set_rank 1 (inserted_row "a" (visit "Al") 1)
           :: l3 ++ AppointmentRow.set_rank 2 (inserted_row "b" (visit "Bea") 2) :: l4).
Proof.
  assert (∀ r, r ∈ [inserted_row "a" (visit "Al") 1; inserted_row "b" (visit "Bea") 2;
                    inserted_row "c" (visit "Cy") 3] →
               r ∈ appointments monday_morning) as Hin
    by (by rewrite appointments_monday_morning).
  assert ("d1" ∈ split "," "d1") as Hd1 by (change (split "," "d1") with ["d1"]; left).
  refine (proj2 (proj2 (proj2 (proj2 (proj2 (proj2
           (proj2 reorder_rewrites_ranks_to_positions "a" "b" "c"
              (inserted_row "a" (visit "Al") 1) (inserted_row "b" (visit "Bea") 2)
              (inserted_row "c" (visit "Cy") 3) "d1" monday_morning
              _ _ _ _ _ _ _ _ _ _ _ _))))))).
  all: try discriminate; try reflexivity; try exact Hd1.
  all: apply Hin; set_solver.
Defined.

Lemma doctors_pending_request :
  doctors pending_request = [registered_row "d1" 0 ann; registered_row "d2" 255 bob].
Proof. reflexivity. Qed.

Lemma match_requests_pending_request :
  match_requests pending_request = [MatchRequestRow.mk "q1" "d1" "ann" "s2"].
Proof. reflexivity. Qed.

Lemma matches_pending_request : matches pending_request = ∅.
Proof. reflexivity. Qed.

(** C5 at the sample data: the second practitioner accepts the request of
    the first. *)
Lemma accepting_the_pending_request :
  (∃ r, r ∈ match_requests pending_request ∧ MatchRequestRow.id r = "q1") ∧
  response (accept_match "q1") pending_request = Ok "Matched" ∧
  match_requests (store (accept_match "q1") pending_request) = [] ∧
  (∀ row, row ∈ matches (store (accept_match "q1") pending_request) ↔
          row = ("d2", "d1") ∨ row = ("d1", "d2")).
Proof.
  assert (∃ r, r ∈ match_requests pending_request ∧ MatchRequestRow.id r = "q1") as Hreq.
  { exists (MatchRequestRow.mk "q1" "d1" "ann" "s2").
    rewrite match_requests_pending_request. split; [left|done]. }
  split; [exact Hreq|].
  destruct (proj2 (accept_match_links_both_ways_and_deletes_request "q1" pending_request)
              Hreq)
    as (req & Hin & Hid & Hresp & Hdel & _ & _ & _ & _ & Hlink).
  split; [exact Hresp|]. split; [by rewrite Hdel, match_requests_pending_request|].
  rewrite match_requests_pending_request in Hin.
  apply list_elem_of_singleton in Hin. subst req.
  destruct Hlink as (target & Htin & Hsid & Hrows & _).
  { exists (registered_row "d2" 255 bob). rewrite doctors_pending_request.
    split; [right; left|done]. }
  rewrite doctors_pending_request in Htin.
  apply elem_of_cons in Htin as [->|Htin]; [discriminate|].
  apply list_elem_of_singleton in Htin. subst target.
  intros row. rewrite Hrows, matches_pending_request. simpl. set_solver.
Defined.

Lemma doctors_two_doctors :
  doctors two_doctors = [registered_row "d1" 0 ann; registered_row "d2" 255 bob].
Proof. reflexivity. Qed.

(** C6 at the sample data: a third registration, once with the student
    id of the first practitioner and once with a new one and the draw
    0x1a2b3c. *)
Lemma registering_a_taken_and_a_new_student_id :
  let eve := Doctor.mk None "s1" "eve" "pw3" "#3b82f6" [] None None in
  let eve' := Doctor.mk None "s3" "eve" "pw3" "#3b82f6" [] None None in
  ((∃ d, d ∈ doctors two_doctors ∧ DoctorRow.student_id d = Doctor.student_id eve) ∧
   response (register "d3" 7 eve) two_doctors =
     Raise (HTTPException 400 (Some "Student ID already exists")) ∧
   store (register "d3" 7 eve) two_doctors = two_doctors) ∧
  ((∀ d, d ∈ doctors two_doctors →
      DoctorRow.student_id d ≠ Doctor.student_id eve') ∧
   (∀ d, d ∈ doctors two_doctors → DoctorRow.id d ≠ "d3") ∧
   ∃ ret row,
     response (register "d3" 0x1a2b3c eve') two_doctors = Ok ret ∧
     doctors (store (register "d3" 0x1a2b3c eve') two_doctors) =
       doctors two_doctors ++ [row] ∧
     Doctor.id ret = Some "d3" ∧
     Doctor.color ret = "#1a2b3c" ∧
     DoctorRow.color row = "#1a2b3c" ∧
     (∀ n, get_random_color n = "#1a2b3c" → n = 0x1a2b3c%N)).
Proof.
  intros eve eve'. split.
  - assert (∃ d, d ∈ doctors two_doctors ∧
                 DoctorRow.student_id d = Doctor.student_id eve) as Htaken.
    { exists (registered_row "d1" 0 ann). rewrite doctors_two_doctors.
      split; [left|done]. }
    split; [exact Htaken|].
    destruct (proj1 (register_conflict_or_persist "d3" 7 eve two_doctors) Htaken)
      as (Hresp & Hstore & _).
    split; [exact Hresp | exact Hstore].
  - assert (∀ d, d ∈ doctors two_doctors →
                 DoctorRow.student_id d ≠ Doctor.student_id eve') as Hsid.
    { rewrite doctors_two_doctors. intros d Hd.
      repeat (apply elem_of_cons in Hd as [->|Hd]; [discriminate|]).
      by apply elem_of_nil in Hd. }
    assert (∀ d, d ∈ doctors two_doctors → DoctorRow.id d ≠ "d3") as Hid.
    { rewrite doctors_two_doctors. intros d Hd.
      repeat (apply elem_of_cons in Hd as [->|Hd]; [discriminate|]).
      by apply elem_of_nil in Hd. }
    split; [exact Hsid|]. split; [exact Hid|].
    destruct (proj2 (register_conflict_or_persist "d3" 0x1a2b3c eve' two_doctors)
                Hsid Hid)
      as (ret & row & Hresp & Hrows & _ & Hrid & Hcolor & _ & Hinj & _ & _ & Hrow).
    exists ret, row.
    assert (Doctor.color ret = "#1a2b3c") as Hc by (rewrite Hcolor; reflexivity).
    split_and!; [exact Hresp | exact Hrows | exact Hrid | exact Hc | |].
    + rewrite Hrow. exact Hc.
    + intros n Hn. apply Hinj. by rewrite Hc.
Defined.

(** C7 at the sample data: the first practitioner logs in. *)
Lemma ann_logs_in :
  (∃ d, d ∈ doctors two_doctors ∧
        DoctorRow.student_id d = "s1" ∧ DoctorRow.password d = "pw1") ∧
  ∃ doc ms,
    response (login (LoginRequest.mk "s1" "pw1")) two_doctors = Ok (doc, ms) ∧
    DoctorRow.student_id doc = "s1" ∧
    DoctorRow.password doc = "pw1" ∧
    (∀ t, t ∈ ms ↔ (DoctorRow.id doc, t) ∈ matches two_doctors).
Proof.
  assert (∃ d, d ∈ doctors two_doctors ∧
               DoctorRow.student_id d = "s1" ∧ DoctorRow.password d = "pw1") as Hann.
  { exists (registered_row "d1" 0 ann). rewrite doctors_two_doctors. split; [left|done]. }
  split; [exact Hann|].
  destruct (proj2 (proj2 (proj2
              (login_unauthorized_iff_no_exact_match (LoginRequest.mk "s1" "pw1")
                 two_doctors))) Hann)
    as (doc & ms & Hresp & _ & Hsid & Hpw & Hms & _).
  exists doc, ms. split_and!; [exact Hresp | exact Hsid | exact Hpw | exact Hms].
Defined.

(** C8 at the sample data: the first practitioner, read back after
    registration. *)
Lemma ann_reads_back :
  response (register "d1" 0 ann) init_db =
    Ok (Doctor.set_color "#000000" (Doctor.set_id (Some "d1") ann)) ∧
  ∃ doc ms,
    response (get_me "d1") (store (register "d1" 0 ann) init_db) = Ok (doc, ms) ∧
    DoctorRow.student_id doc = "s1" ∧
    DoctorRow.username doc = "ann" ∧
    DoctorRow.password doc = "pw1" ∧
    DoctorRow.color doc = "#000000".
Proof.
  assert (response (register "d1" 0 ann) init_db =
          Ok (Doctor.set_color "#000000" (Doctor.set_id (Some "d1") ann))) as Hok
    by reflexivity.
  split; [exact Hok|].
  destruct (proj1 create_then_read_round_trip "d1" 0%N ann init_db _ Hok)
    as (doc & ms & _ & Hme & _ & _ & Hsid & Huser & Hpw & _ & _ & Hcolor & _).
  exists doc, ms. split_and!; [exact Hme | exact Hsid | exact Huser | exact Hpw | exact Hcolor].
Defined.

(** C9 at the sample data: Monday blocked and unblocked again. *)
Lemma monday_blocked_and_unblocked :
  let data := BlockedDay.mk "d1" "2026-11-09" in
  (("d1", "2026-11-09") ∉ blocked_days two_doctors) ∧
  response (toggle_blocked_day data) two_doctors = Ok "blocked" ∧
  ("d1", "2026-11-09") ∈ blocked_days (store (toggle_blocked_day data) two_doctors) ∧
  store (toggle_blocked_day data) (store (toggle_blocked_day data) two_doctors)
  = two_doctors.
Proof.
  intros data.
  assert (("d1", "2026-11-09") ∉ blocked_days two_doctors) as Hfree.
  { change (blocked_days two_doctors) with (∅ : gset (string * string)).
    apply not_elem_of_empty. }
  split; [exact Hfree|].
  destruct (proj1 toggle_presence_and_involution data two_doctors)
    as (Habsent & _ & _ & _ & Htwice).
  destruct (Habsent Hfree) as [Hresp Hin].
  split_and!; [exact Hresp | exact Hin | exact Htwice].
Defined.

(** * Further properties of the endpoints *)

(** ** The connection handshake *)

Lemma send_match_request_run uuid4 req db :
  send_match_request uuid4 req db =
  match head (filter (λ r, DoctorRow.student_id r = MatchRequest.to_student_id req)
                     (doctors db)) with
  | None => (Raise (HTTPException 404 (Some "Student ID not found")), db)
  | Some target =>
      if decide (DoctorRow.id target = MatchRequest.from_id req)
      then (Raise (HTTPException 400 (Some "Cannot match with self")), db)
      else if decide (Exists (λ r, MatchRequestRow.id r = uuid4) (match_requests db))
      then (Raise IntegrityError, db)
      else (Ok "Request sent",
            with_match_requests (match_requests db ++ [requested_row uuid4 req]) db)
  end.
Proof.
  unfold send_match_request, insert_match_requests. run_endpoint.
  destruct (head (filter _ (doctors db))) as [target|]; [|done].
  destruct (decide (DoctorRow.id target = MatchRequest.from_id req)); [done|].
  simpl. destruct (decide (Exists _ (match_requests db))); done.
Qed.

Lemma accept_match_run req_id db :
  accept_match req_id db =
  match head (filter (λ r, MatchRequestRow.id r = req_id) (match_requests db)) with
  | None => (Raise (HTTPException 404 None), db)
  | Some req =>
      (Ok "Matched",
       with_match_requests
         (filter (λ r, MatchRequestRow.id r ≠ req_id) (match_requests db))
         match head (filter (λ r, DoctorRow.student_id r =
                                  MatchRequestRow.to_student_id req) (doctors db)) with
         | Some target =>
             with_matches
               (matches db ∪ {[ (DoctorRow.id target, MatchRequestRow.from_id req) ]}
                           ∪ {[ (MatchRequestRow.from_id req, DoctorRow.id target) ]}) db
         | None => db
         end)
  end.
Proof.
  unfold accept_match. run_endpoint.
  destruct (head (filter _ (match_requests db))) as [req|]; [|done].
  destruct (head (filter _ (doctors db))) as [target|]; [|done].
  by rewrite !insert_or_ignore_matches_run.
Qed.

Lemma send_match_request_Ok_inv uuid4 req db msg :
  response (send_match_request uuid4 req) db = Ok msg →
  msg = "Request sent" ∧
  (∃ target,
      head (filter (λ r, DoctorRow.student_id r = MatchRequest.to_student_id req)
                   (doctors db)) = Some target ∧
      DoctorRow.id target ≠ MatchRequest.from_id req) ∧
  (∀ r, r ∈ match_requests db → MatchRequestRow.id r ≠ uuid4) ∧
  store (send_match_request uuid4 req) db =
    with_match_requests (match_requests db ++ [requested_row uuid4 req]) db.
Proof.
  unfold response, store. rewrite send_match_request_run.
  destruct (head (filter _ (doctors db))) as [target|]; [|done].
  destruct (decide (DoctorRow.id target = MatchRequest.from_id req)); [done|].
  destruct (decide (Exists _ (match_requests db))) as [|Hnot]; [done|].
  simpl. intros [= <-]. split_and!; [done | eauto | | done].
  rewrite Exists_exists in Hnot. intros r Hr Hid. apply Hnot. eauto.
Qed.

(** X1. [send_match_request] fails with 404 when no practitioner has the
    requested student id and with 400 when the practitioner who has it is
    the sender; both leave the database as it was.  Otherwise (the
    generated id not being in use) it answers "Request sent" and appends
    one request row carrying the sender's id and name and the student id;
    no other table changes.  The sender's id itself is not looked up. *)
Theorem send_match_request_outcomes uuid4 req db :
  let db' := store (send_match_request uuid4 req) db in
  ((∀ d, d ∈ doctors db →
      DoctorRow.student_id d ≠ MatchRequest.to_student_id req) →
     response (send_match_request uuid4 req) db =
       Raise (HTTPException 404 (Some "Student ID not found")) ∧ db' = db) ∧
  ((∃ d, d ∈ doctors db ∧
         DoctorRow.student_id d = MatchRequest.to_student_id req) →
     ∃ target, target ∈ doctors db ∧
       DoctorRow.student_id target = MatchRequest.to_student_id req ∧
       (DoctorRow.id target = MatchRequest.from_id req →
          response (send_match_request uuid4 req) db =
            Raise (HTTPException 400 (Some "Cannot match with self")) ∧ db' = db) ∧
       (DoctorRow.id target ≠ MatchRequest.from_id req →
        (∀ r, r ∈ match_requests db → MatchRequestRow.id r ≠ uuid4) →
          response (send_match_request uuid4 req) db = Ok "Request sent" ∧
          match_requests db' =
            match_requests db ++
            [MatchRequestRow.mk uuid4 (MatchRequest.from_id req)
               (MatchRequest.from_name req) (MatchRequest.to_student_id req)] ∧
          with_match_requests (match_requests db) db' = db)).
Proof.
  intros db'. subst db'. unfold response, store. rewrite send_match_request_run.
  destruct (head (filter _ (doctors db))) as [target|] eqn:Htarget.
  - apply fetchone_Some in Htarget as [Hin Hsid]. split.
    + intros Hnone. by destruct (Hnone target Hin).
    + intros _. exists target. split; [done|]. split; [done|].
      destruct (decide (DoctorRow.id target = MatchRequest.from_id req)) as [Heq|Hne];
        simpl; split; try done.
      intros _ Hfresh. rewrite decide_False.
      * simpl. split_and!; [done | done | by destruct db].
      * rewrite Exists_exists. intros (r & Hr & Hid). by apply (Hfresh r Hr).
  - rewrite fetchone_None in Htarget. split; [done|].
    intros (d & Hd & Hsid). by destruct (Htarget d Hd).
Qed.

(** X2. After a successful [send_match_request] the incoming requests of
    the addressed student id are the earlier ones followed by the new
    request; the incoming requests of every other student id are the same
    as before. *)
Theorem sent_request_is_listed uuid4 req db msg :
  response (send_match_request uuid4 req) db = Ok msg →
  let db' := store (send_match_request uuid4 req) db in
  ∀ to_student_id, ∃ earlier,
    get_match_requests to_student_id db = (Ok earlier, db) ∧
    get_match_requests to_student_id db' =
      (Ok (if decide (to_student_id = MatchRequest.to_student_id req)
           then earlier ++
                [MatchRequestRow.mk uuid4 (MatchRequest.from_id req)
                   (MatchRequest.from_name req) (MatchRequest.to_student_id req)]
           else earlier), db').
Proof.
  intros Hok db' sid.
  apply send_match_request_Ok_inv in Hok as (_ & _ & _ & Hstore).
  exists (filter (λ r, MatchRequestRow.to_student_id r = sid) (match_requests db)).
  split; [done|]. unfold get_match_requests, connect, query. f_equal. f_equal.
  unfold db'. rewrite Hstore. simpl.
  destruct (decide (sid = MatchRequest.to_student_id req)) as [->|Hne].
  - by rewrite filter_snoc_True.
  - rewrite filter_snoc_False; [done|]. simpl. congruence.
Qed.

Lemma filter_all {A} (P : A → Prop) `{!∀ x, Decision (P x)} (l : list A) :
  (∀ x, x ∈ l → P x) → filter P l = l.
Proof.
  induction l as [|h t IH]; intros Hall; [done|].
  rewrite filter_cons_True by (apply Hall; left).
  f_equal. apply IH. intros x Hx. apply Hall. by right.
Qed.

(** X3. A request that was sent successfully can be accepted: accepting
    it answers "Matched", links the addressed practitioner and the sender
    in both directions, adds no other pair, and leaves the request table
    as it was before the request was sent. *)
Theorem sent_request_can_be_accepted uuid4 req db msg :
  response (send_match_request uuid4 req) db = Ok msg →
  let db1 := store (send_match_request uuid4 req) db in
  let db2 := store (accept_match uuid4) db1 in
  response (accept_match uuid4) db1 = Ok "Matched" ∧
  match_requests db2 = match_requests db ∧
  ∃ target,
    target ∈ doctors db ∧
    DoctorRow.student_id target = MatchRequest.to_student_id req ∧
    DoctorRow.id target ≠ MatchRequest.from_id req ∧
    (∀ row, row ∈ matches db2 ↔
       row ∈ matches db ∨
       row = (DoctorRow.id target, MatchRequest.from_id req) ∨
       row = (MatchRequest.from_id req, DoctorRow.id target)) ∧
    with_matches (matches db) db2 = db.
Proof.
  intros Hok db1 db2.
  apply send_match_request_Ok_inv in Hok as (_ & (target & Htarget & Hne) & Hfresh & Hstore).
  pose proof (fetchone_Some _ _ _ Htarget) as [Hin Hsid].
  assert (filter (λ r, MatchRequestRow.id r ≠ uuid4)
                 (match_requests db ++ [requested_row uuid4 req]) = match_requests db)
    as Hdel.
  { rewrite filter_snoc_False by (simpl; tauto). by apply filter_all. }
  assert (accept_match uuid4 db1 =
          (Ok "Matched",
           with_matches
             (matches db ∪ {[ (DoctorRow.id target, MatchRequest.from_id req) ]}
                         ∪ {[ (MatchRequest.from_id req, DoctorRow.id target) ]}) db))
    as Hrun.
  { rewrite accept_match_run. unfold db1. rewrite Hstore. simpl.
    rewrite (fetchone_appended (λ r, MatchRequestRow.id r = uuid4)) by done.
    simpl. rewrite Htarget, Hdel. by destruct db. }
  unfold db2, response, store. rewrite Hrun. simpl.
  split; [done|]. split; [done|]. exists target.
  split_and!; [done | done | done | set_solver | by destruct db].
Qed.

(** X4. Accepting consumes the request: after [accept_match] has answered
    for a request id, accepting the same id again fails with 404 and
    changes nothing. *)
Theorem accepted_request_is_gone req_id db msg :
  response (accept_match req_id) db = Ok msg →
  let db' := store (accept_match req_id) db in
  accept_match req_id db' = (Raise (HTTPException 404 None), db').
Proof.
  intros Hok db'. unfold response in Hok. rewrite accept_match_run in Hok.
  assert (filter (λ r, MatchRequestRow.id r = req_id) (match_requests db') = []) as Hgone.
  { apply filter_empty_iff. intros r Hr.
    unfold db', store in Hr. rewrite accept_match_run in Hr.
    destruct (head (filter _ (match_requests db))) as [req|]; [|done].
    simpl in Hr. apply list_elem_of_filter in Hr as [Hne _]. tauto. }
  rewrite accept_match_run. by rewrite Hgone.
Qed.

Lemma get_matches_list_elem doctor_id db ms :
  response (get_matches_list doctor_id) db = Ok ms →
  ∀ t, t ∈ ms ↔ (doctor_id, t) ∈ matches db.
Proof.
  destruct (get_matches_list_spec doctor_id db) as (ms' & Hrun & Hspec & _).
  unfold response. rewrite Hrun. simpl. by intros [= <-].
Qed.

(** X5. [remove_match] removes the one pair (doctor_id, target_id) and
    nothing else: the opposite pair and every other connection stay, so
    after removing one direction of a mutual connection the target still
    lists the practitioner while the practitioner no longer lists the
    target.  No other table changes. *)
Theorem remove_match_is_one_directional doctor_id target_id db :
  let db' := store (remove_match doctor_id target_id) db in
  response (remove_match doctor_id target_id) db = Ok "removed" ∧
  with_matches (matches db) db' = db ∧
  (∀ row, row ∈ matches db' ↔ row ∈ matches db ∧ row ≠ (doctor_id, target_id)) ∧
  (∀ ms, response (get_matches_list doctor_id) db' = Ok ms → target_id ∉ ms) ∧
  (doctor_id ≠ target_id →
   ∀ ms ms', response (get_matches_list target_id) db = Ok ms →
             response (get_matches_list target_id) db' = Ok ms' →
             ∀ t, t ∈ ms' ↔ t ∈ ms).
Proof.
  intros db'.
  assert (matches db' = matches db ∖ {[ (doctor_id, target_id) ]}) as Hm by done.
  split_and!; [done | by destruct db | rewrite Hm; set_solver | |].
  - intros ms Hms. rewrite (get_matches_list_elem _ _ _ Hms), Hm. set_solver.
  - intros Hne ms ms' Hms Hms' t.
    rewrite (get_matches_list_elem _ _ _ Hms), (get_matches_list_elem _ _ _ Hms'), Hm.
    set_solver.
Qed.

(** ** Profiles *)

Lemma filter_fmap_preserved {A} (P : A → Prop) `{!∀ x, Decision (P x)}
    (f : A → A) (l : list A) :
  (∀ x, P (f x) ↔ P x) → filter P (f <$> l) = f <$> filter P l.
Proof.
  intros Hf. induction l as [|h t IH]; [done|]. rewrite fmap_cons.
  destruct (decide (P h)) as [HP|HnP].
  - rewrite !filter_cons_True by (done || by apply Hf). by rewrite fmap_cons, IH.
  - rewrite !filter_cons_False by (done || by rewrite Hf). done.
Qed.

Lemma get_me_run id db :
  ∃ ms, (∀ t, t ∈ ms ↔ (id, t) ∈ matches db) ∧ NoDup ms ∧
    get_me id db =
    match head (filter (λ r, DoctorRow.id r = id) (doctors db)) with
    | Some doc => (Ok (doc, ms), db)
    | None => (Raise (HTTPException 404 (Some "Doctor not found")), db)
    end.
Proof.
  destruct (get_matches_list_spec id db) as (ms & Hms & Hspec & Hnodup).
  exists ms. split; [done|]. split; [done|].
  unfold get_me, get_matches_list in *. run_endpoint.
  destruct (head (filter _ (doctors db))) as [doc|]; [|done].
  simpl. by injection Hms as <-.
Qed.

(** X7. [get_me] changes nothing and has one way to fail: status 404,
    exactly when no practitioner has the given id.  Otherwise it returns a
    row with that id and the target ids that the connection table holds
    for the id, each once. *)
Theorem get_me_not_found_iff_unknown_id id db :
  store (get_me id) db = db ∧
  (response (get_me id) db = Raise (HTTPException 404 (Some "Doctor not found")) ↔
   ¬ ∃ d, d ∈ doctors db ∧ DoctorRow.id d = id) ∧
  (∀ e, response (get_me id) db = Raise e →
        e = HTTPException 404 (Some "Doctor not found")) ∧
  ((∃ d, d ∈ doctors db ∧ DoctorRow.id d = id) →
   ∃ doc ms,
     response (get_me id) db = Ok (doc, ms) ∧
     doc ∈ doctors db ∧ DoctorRow.id doc = id ∧
     (∀ t, t ∈ ms ↔ (id, t) ∈ matches db) ∧ NoDup ms).
Proof.
  destruct (get_me_run id db) as (ms & Hms & Hnodup & Hrun).
  unfold response, store. rewrite Hrun.
  destruct (head (filter _ (doctors db))) as [doc|] eqn:Hdoc; simpl.
  - apply fetchone_Some in Hdoc as [Hin Hid].
    split_and!; [done | | done |].
    + split; [done|]. intros Hno. destruct Hno. eauto.
    + intros _. exists doc, ms. done.
  - rewrite fetchone_None in Hdoc.
    split_and!; [done | | congruence |].
    + split; [|done]. intros _ (d & Hd & Hid). by apply (Hdoc d Hd).
    + intros (d & Hd & Hid). by destruct (Hdoc d Hd).
Qed.

(** X6. [update_color] always answers "updated".  It overwrites the
    color of the rows with the given id and no other column, row or
    table, so for an unknown id it changes nothing; a profile that
    [get_me] returned before is returned afterwards with the new color
    and is otherwise the same. *)
Theorem update_color_overwrites_only_the_color doctor_id color db :
  let db' := store (update_color doctor_id color) db in
  response (update_color doctor_id color) db = Ok "updated" ∧
  with_doctors (doctors db) db' = db ∧
  (∀ (i : nat) r, doctors db !! i = Some r →
     doctors db' !! i =
     Some (if decide (DoctorRow.id r = doctor_id) then recolored color r else r)) ∧
  ((∀ d, d ∈ doctors db → DoctorRow.id d ≠ doctor_id) → db' = db) ∧
  (∀ doc ms, response (get_me doctor_id) db = Ok (doc, ms) →
     response (get_me doctor_id) db' = Ok (recolored color doc, ms)).
Proof.
  intros db'.
  set (f := λ r, if decide (DoctorRow.id r = doctor_id) then recolored color r else r).
  assert (db' = with_doctors (f <$> doctors db) db) as Hdb' by done.
  split_and!; [done | by destruct db | | |].
  - intros i r Hi. rewrite Hdb'. simpl. by rewrite list_lookup_fmap, Hi.
  - intros Hnone. rewrite Hdb'. destruct db as [ds ? ? ? ? ? ?]. unfold with_doctors.
    simpl in *. f_equal. rewrite <- (list_fmap_id ds) at 2.
    apply list_fmap_ext. intros i r Hr. unfold f.
    rewrite decide_False; [done|]. apply Hnone. by eapply list_elem_of_lookup_2.
  - intros doc ms.
    destruct (get_me_run doctor_id db) as (ms0 & Hms0 & _ & Hrun0).
    destruct (get_me_run doctor_id db') as (ms1 & Hms1 & _ & Hrun1).
    unfold response. rewrite Hrun0, Hrun1, Hdb'. simpl.
    rewrite (filter_fmap_preserved (λ r, DoctorRow.id r = doctor_id) f).
    2:{ intros x. unfold f. by destruct (decide _). }
    destruct (filter _ (doctors db)) as [|h t] eqn:Hf; simpl; [done|].
    intros [= -> ->]. f_equal. f_equal.
    + assert (doc ∈ filter (λ r, DoctorRow.id r = doctor_id) (doctors db)) as Hh
        by (rewrite Hf; left).
      apply list_elem_of_filter in Hh as [Hid _]. unfold f. by rewrite decide_True.
    + (* both lists come from the same connection table *)
      unfold get_me, get_matches_list in Hrun0, Hrun1. run_endpoint.
      rewrite Hdb' in Hrun1. simpl in Hrun1.
      rewrite (filter_fmap_preserved (λ r, DoctorRow.id r = doctor_id) f) in Hrun1.
      2:{ intros x. unfold f. by destruct (decide _). }
      rewrite Hf in Hrun0, Hrun1. simpl in *. congruence.
Qed.

(** ** Patients *)

Lemma filter_comm {A} (P Q : A → Prop) `{!∀ x, Decision (P x)} `{!∀ x, Decision (Q x)}
    (l : list A) :
  filter P (filter Q l) = filter Q (filter P l).
Proof. rewrite !list_filter_filter. apply list_filter_iff. tauto. Qed.

Lemma add_patient_Ok_store uuid4 p db ret :
  response (add_patient uuid4 p) db = Ok ret →
  (∀ r, r ∈ patients db → PatientRow.id r ≠ uuid4) ∧
  store (add_patient uuid4 p) db =
    with_patients
      (patients db ++ [PatientRow.mk uuid4 (Patient.doctor_id p) (Patient.name p)
                         (Some (or_empty (Patient.r4 p)))]) db.
Proof.
  unfold add_patient, insert_patients. run_endpoint.
  destruct (decide (Exists _ (patients db))) as [|Hnot]; [done|]. intros _.
  split; [|done]. rewrite Exists_exists in Hnot.
  intros r Hr Hid. apply Hnot. eauto.
Qed.

(** X8. A patient that was added can be taken out again: after a
    successful [add_patient], [delete_patient] with the generated id gives
    back the database as it was before the patient was added. *)
Theorem delete_patient_undoes_add_patient uuid4 p db ret :
  response (add_patient uuid4 p) db = Ok ret →
  store (delete_patient uuid4) (store (add_patient uuid4 p) db) = db.
Proof.
  intros Hok. apply add_patient_Ok_store in Hok as [Hfresh ->].
  unfold delete_patient. run_endpoint.
  rewrite filter_snoc_False by (simpl; tauto).
  rewrite filter_all by done. by destruct db.
Qed.

(** X9. [delete_patient] always answers "deleted" and removes the rows
    with the given id whichever practitioner they belong to: afterwards
    every practitioner's patient list is the earlier list without that
    id, in the same order.  For an id that no patient has it changes
    nothing; no other table changes. *)
Theorem delete_patient_ignores_ownership pid db :
  let db' := store (delete_patient pid) db in
  response (delete_patient pid) db = Ok "deleted" ∧
  with_patients (patients db) db' = db ∧
  (∀ doctor_id, ∃ before,
     get_patients doctor_id db = (Ok before, db) ∧
     get_patients doctor_id db' =
       (Ok (filter (λ r, PatientRow.id r ≠ pid) before), db')) ∧
  ((∀ r, r ∈ patients db → PatientRow.id r ≠ pid) → db' = db).
Proof.
  intros db'.
  assert (db' = with_patients (filter (λ r, PatientRow.id r ≠ pid) (patients db)) db)
    as Hdb' by done.
  split_and!; [done | by destruct db | |].
  - intros doctor_id. eexists. split; [reflexivity|].
    unfold get_patients, connect, query. rewrite Hdb' at 1. simpl.
    by rewrite filter_comm.
  - intros Hnone. rewrite Hdb', filter_all by done. by destruct db.
Qed.

(** X10. A successful [add_patient] returns the submitted patient with
    the generated id, puts one new row at the end of the patient list of
    the practitioner named in it, and leaves the patient list of every
    other practitioner and all other tables as they were. *)
Theorem add_patient_extends_one_list uuid4 p db ret :
  response (add_patient uuid4 p) db = Ok ret →
  let db' := store (add_patient uuid4 p) db in
  ret = Patient.set_id (Some uuid4) p ∧
  with_patients (patients db) db' = db ∧
  ∀ doctor_id, ∃ before,
    get_patients doctor_id db = (Ok before, db) ∧
    get_patients doctor_id db' =
      (Ok (if decide (doctor_id = Patient.doctor_id p)
           then before ++ [PatientRow.mk uuid4 (Patient.doctor_id p) (Patient.name p)
                             (Some (or_empty (Patient.r4 p)))]
           else before), db').
Proof.
  intros Hok db'. pose proof Hok as Hok'.
  apply add_patient_Ok_store in Hok' as [Hfresh Hstore].
  split_and!.
  - revert Hok. unfold add_patient, insert_patients. run_endpoint.
    destruct (decide (Exists _ (patients db))); [done|]. by intros [= <-].
  - unfold db'. rewrite Hstore. by destruct db.
  - intros doctor_id. eexists. split; [reflexivity|].
    unfold get_patients, connect, query. f_equal. f_equal.
    unfold db'. rewrite Hstore. simpl.
    destruct (decide (doctor_id = Patient.doctor_id p)) as [->|Hne].
    + by rewrite filter_snoc_True.
    + rewrite filter_snoc_False; [done|]. simpl. congruence.
Qed.

(** ** Appointment listings *)

Lemma insert_by_rank_fmap (f : AppointmentRow.t → AppointmentRow.t) r l :
  (∀ x, AppointmentRow.rank (f x) = AppointmentRow.rank x) →
  insert_by_rank (f r) (f <$> l) = f <$> insert_by_rank r l.
Proof.
  intros Hf. induction l as [|h t IH]; [done|].
  rewrite fmap_cons. simpl. rewrite !Hf.
  destruct (decide _); [done|]. by rewrite IH, fmap_cons.
Qed.

Lemma order_by_rank_fmap (f : AppointmentRow.t → AppointmentRow.t) l :
  (∀ x, AppointmentRow.rank (f x) = AppointmentRow.rank x) →
  order_by_rank (f <$> l) = f <$> order_by_rank l.
Proof.
  intros Hf. induction l as [|h t IH]; [done|].
  rewrite fmap_cons. simpl. fold (order_by_rank (f <$> t)). fold (order_by_rank t).
  rewrite IH. by apply insert_by_rank_fmap.
Qed.

Lemma filter_insert_by_rank (P : AppointmentRow.t → Prop) `{!∀ x, Decision (P x)} r l :
  StronglySorted rank_le l →
  filter P (insert_by_rank r l) =
  if decide (P r) then insert_by_rank r (filter P l) else filter P l.
Proof.
  induction l as [|h t IH]; intros Hs.
  - simpl. rewrite filter_cons, filter_nil. by destruct (decide (P r)).
  - apply StronglySorted_cons in Hs as [Hh Ht]. simpl.
    destruct (decide (AppointmentRow.rank r ≤ AppointmentRow.rank h)) as [Hle|Hgt].
    + rewrite filter_cons. destruct (decide (P r)) as [HP|HnP]; [|done].
      destruct (filter P (h :: t)) as [|h' t'] eqn:Hf; [done|]. simpl.
      rewrite decide_True; [done|].
      assert (h' ∈ h :: t) as Hin.
      { assert (h' ∈ filter P (h :: t)) as Hin' by (rewrite Hf; left).
        by apply list_elem_of_filter in Hin' as [_ ?]. }
      apply elem_of_cons in Hin as [->|Hin]; [done|].
      rewrite Forall_forall in Hh. specialize (Hh _ Hin). unfold rank_le in Hh. lia.
    + rewrite (filter_cons _ h), (filter_cons _ h t), IH by done.
      destruct (decide (P h)) as [HPh|HnPh]; [|done].
      destruct (decide (P r)) as [HP|HnP]; [|done].
      simpl. by rewrite decide_False.
Qed.

Lemma filter_order_by_rank (P : AppointmentRow.t → Prop) `{!∀ x, Decision (P x)} l :
  filter P (order_by_rank l) = order_by_rank (filter P l).
Proof.
  induction l as [|h t IH]; [done|].
  simpl. fold (order_by_rank t).
  rewrite filter_insert_by_rank by apply order_by_rank_sorted.
  rewrite filter_cons, IH. by destruct (decide (P h)).
Qed.

(** X11. [get_appointments] changes nothing and returns the appointments
    of the practitioners named in the comma-separated list, each as often
    as it is stored, in ascending order of rank, whatever their day and
    session. *)
Theorem get_appointments_sorted_by_rank doctor_ids db :
  ∃ rows,
    get_appointments doctor_ids db = (Ok rows, db) ∧
    StronglySorted (λ r1 r2, AppointmentRow.rank r1 ≤ AppointmentRow.rank r2) rows ∧
    rows ≡ₚ filter (λ r, AppointmentRow.doctor_id r ∈ split "," doctor_ids)
                   (appointments db).
Proof.
  eexists. split; [apply get_appointments_run|].
  split; [apply order_by_rank_sorted | apply order_by_rank_perm].
Qed.

Lemma create_appointment_Ok_store uuid4 appt db ret :
  response (create_appointment uuid4 appt) db = Ok ret →
  (∀ r, r ∈ appointments db → AppointmentRow.id r ≠ uuid4) ∧
  store (create_appointment uuid4 appt) db =
    with_appointments
      (appointments db ++
       [inserted_row uuid4 appt
          ((match max_rank (bucket_of appt db) with Some m => m | None => 0 end) + 1)]) db.
Proof.
  intros Hok. pose proof (create_appointment_Ok_inv _ _ _ _ Hok) as Hfresh.
  split; [done|]. unfold store. by rewrite create_appointment_run.
Qed.

(** X12. An appointment that was created can be taken out again: after a
    successful [create_appointment], [delete_appointment] with the
    generated id gives back the database as it was before. *)
Theorem delete_appointment_undoes_create_appointment uuid4 appt db ret :
  response (create_appointment uuid4 appt) db = Ok ret →
  store (delete_appointment uuid4) (store (create_appointment uuid4 appt) db) = db.
Proof.
  intros Hok. apply create_appointment_Ok_store in Hok as [Hfresh ->].
  unfold delete_appointment. run_endpoint.
  rewrite filter_snoc_False by (simpl; tauto).
  rewrite filter_all by done. by destruct db.
Qed.

(** X13. [delete_appointment] always answers "deleted", removes the rows
    with the given id and renumbers nothing: every listing is the earlier
    listing without that id, the other appointments keeping their ranks
    and their order.  For an unknown id it changes nothing; no other
    table changes. *)
Theorem delete_appointment_keeps_the_other_ranks appt_id db :
  let db' := store (delete_appointment appt_id) db in
  response (delete_appointment appt_id) db = Ok "deleted" ∧
  with_appointments (appointments db) db' = db ∧
  (∀ doctor_ids, ∃ before,
     get_appointments doctor_ids db = (Ok before, db) ∧
     get_appointments doctor_ids db' =
       (Ok (filter (λ r, AppointmentRow.id r ≠ appt_id) before), db')) ∧
  ((∀ r, r ∈ appointments db → AppointmentRow.id r ≠ appt_id) → db' = db).
Proof.
  intros db'.
  assert (db' = with_appointments
                  (filter (λ r, AppointmentRow.id r ≠ appt_id) (appointments db)) db)
    as Hdb' by done.
  split_and!; [done | by destruct db | |].
  - intros doctor_ids. eexists. split; [apply get_appointments_run|].
    rewrite get_appointments_run. f_equal. f_equal.
    rewrite filter_order_by_rank. f_equal. rewrite Hdb'. simpl. apply filter_comm.
  - intros Hnone. rewrite Hdb', filter_all by done. by destruct db.
Qed.

(** X14. Moving an appointment never changes its place in a listing:
    after [move_appointment] every listing has the same appointments at
    the same positions as before, the moved one showing its new day and
    session. *)
Theorem move_appointment_keeps_listing_order appt_id req db doctor_ids :
  let db' := store (move_appointment appt_id req) db in
  ∃ before,
    get_appointments doctor_ids db = (Ok before, db) ∧
    get_appointments doctor_ids db' =
      (Ok ((λ r, if decide (AppointmentRow.id r = appt_id)
                 then AppointmentRow.set_day_session (MoveRequest.day req)
                        (MoveRequest.session req) r
                 else r) <$> before), db').
Proof.
  intros db'. eexists. split; [apply get_appointments_run|].
  rewrite get_appointments_run. f_equal. f_equal.
  set (f := λ r, if decide (AppointmentRow.id r = appt_id)
                 then AppointmentRow.set_day_session (MoveRequest.day req)
                        (MoveRequest.session req) r else r).
  assert (appointments db' = f <$> appointments db) as -> by done.
  rewrite (filter_fmap_preserved _ f).
  - apply order_by_rank_fmap. intros x. unfold f. by destruct (decide _).
  - intros x. unfold f. by destruct (decide _).
Qed.

(** ** Reordering, again *)

Lemma final_rank_listed index ids x old old' :
  x ∈ ids → final_rank index ids x old = final_rank index ids x old'.
Proof.
  revert index old old'. induction ids as [|y ids IH]; intros index old old' Hx.
  - by apply elem_of_nil in Hx.
  - simpl. destruct (decide (x = y)) as [->|Hne].
    + destruct (decide (y ∈ ids)) as [Hin|Hout]; [by apply IH|].
      by rewrite !final_rank_not_listed.
    + apply IH. apply elem_of_cons in Hx as [?|?]; [done|done].
Qed.

Lemma final_rank_idem index ids x old :
  final_rank index ids x (final_rank index ids x old) = final_rank index ids x old.
Proof.
  destruct (decide (x ∈ ids)) as [Hin|Hout].
  - by apply final_rank_listed.
  - by rewrite !final_rank_not_listed.
Qed.

(** X15. Reordering is idempotent and touches listed appointments only:
    running [reorder_appointments] twice with the same list gives the
    same database as running it once, and a list that names no stored
    appointment (the empty list among them) changes nothing. *)
Theorem reorder_appointments_idempotent req db :
  let db' := store (reorder_appointments req) db in
  store (reorder_appointments req) db' = db' ∧
  ((∀ r, r ∈ appointments db → AppointmentRow.id r ∉ ReorderRequest.ids req) →
   db' = db).
Proof.
  intros db'. unfold db', store. rewrite !reorder_appointments_run. simpl. split.
  - unfold with_appointments. simpl. f_equal.
    rewrite <- list_fmap_compose. apply list_fmap_ext. intros i r _. simpl.
    rewrite final_rank_idem. by destruct r.
  - intros Hnone. destruct db as [? ? ? ? appts ? ?]. unfold with_appointments.
    simpl in *. f_equal. rewrite <- (list_fmap_id appts) at 2.
    apply list_fmap_ext. intros i r Hr. simpl.
    rewrite final_rank_not_listed; [apply set_rank_same|].
    apply Hnone. by eapply list_elem_of_lookup_2.
Qed.

Lemma NoDup_not_later {A} (l : list A) (i : nat) (x : A) :
  NoDup l → l !! i = Some x → x ∉ drop (S i) l.
Proof.
  intros Hnd Hi Hin. apply list_elem_of_lookup in Hin as [j Hj].
  rewrite lookup_drop in Hj.
  pose proof (NoDup_lookup _ _ _ _ Hnd Hi Hj). lia.
Qed.

Lemma max_rank_unique rows m :
  (∃ r, r ∈ rows ∧ AppointmentRow.rank r = m) →
  (∀ r, r ∈ rows → AppointmentRow.rank r ≤ m) →
  max_rank rows = Some m.
Proof.
  intros (r & Hr & Hm) Hall.
  destruct (max_rank rows) as [m'|] eqn:Hmax.
  - apply max_rank_Some in Hmax as [(r' & Hr' & Hm') Hall'].
    specialize (Hall _ Hr'). specialize (Hall' _ Hr). f_equal. lia.
  - apply max_rank_None in Hmax as ->. by apply elem_of_nil in Hr.
Qed.

(** X16. Creation appends after a reorder: when the list given to
    [reorder_appointments] holds, once each, exactly the ids of the
    appointments of one bucket, and the bucket is not empty, the next
    appointment created in that bucket is stored with the number of
    appointments in the bucket as its rank, one more than the last rank
    the reorder gave out. *)
Theorem create_after_reorder_gets_the_length uuid4 appt req db :
  let bucket := filter (in_bucket (Appointment.doctor_id appt) (Appointment.day appt)
                                  (Appointment.session appt)) (appointments db) in
  bucket ≠ [] →
  ReorderRequest.ids req ≡ₚ AppointmentRow.id <$> bucket →
  NoDup (ReorderRequest.ids req) →
  (∀ r, r ∈ appointments db → AppointmentRow.id r ≠ uuid4) →
  let db1 := store (reorder_appointments req) db in
  ∃ row,
    appointments (store (create_appointment uuid4 appt) db1) = appointments db1 ++ [row] ∧
    AppointmentRow.id row = uuid4 ∧
    AppointmentRow.rank row = Z.of_nat (List.length (ReorderRequest.ids req)).
Proof.
  intros bucket Hne Hperm Hnodup Hfresh db1.
  set (ids := ReorderRequest.ids req) in *.
  set (g := λ r, AppointmentRow.set_rank
                   (final_rank 0 ids (AppointmentRow.id r) (AppointmentRow.rank r)) r).
  assert (db1 = with_appointments (g <$> appointments db) db) as Hdb1
    by (unfold db1, store; by rewrite reorder_appointments_run).
  assert (bucket_of appt db1 = g <$> bucket) as Hbucket.
  { unfold bucket_of. rewrite Hdb1. simpl. apply filter_fmap_preserved.
    intros x. by destruct x. }
  assert (∀ r, r ∈ bucket → ∃ i : nat,
             ids !! i = Some (AppointmentRow.id r) ∧
             AppointmentRow.rank (g r) = Z.of_nat i) as Hpos.
  { intros r Hr.
    assert (AppointmentRow.id r ∈ ids) as Hin.
    { rewrite Hperm. apply list_elem_of_fmap. eauto. }
    apply list_elem_of_lookup in Hin as [i Hi]. exists i. split; [done|].
    unfold g. simpl. rewrite (final_rank_last_position _ _ _ _ i); [lia|done|].
    by apply NoDup_not_later. }
  assert (List.length ids ≠ 0%nat) as Hlen.
  { rewrite Hperm, length_fmap. by destruct bucket. }
  assert (max_rank (g <$> bucket) = Some (Z.of_nat (List.length ids) - 1)) as Hmax.
  { apply max_rank_unique.
    - assert (is_Some (ids !! (List.length ids - 1)%nat)) as [x Hx]
        by (apply lookup_lt_is_Some; lia).
      assert (x ∈ AppointmentRow.id <$> bucket) as Hxb.
      { rewrite <- Hperm. by eapply list_elem_of_lookup_2. }
      apply list_elem_of_fmap in Hxb as (r & -> & Hr).
      exists (g r). split; [apply list_elem_of_fmap; eauto|].
      destruct (Hpos r Hr) as (i & Hi & ->).
      pose proof (NoDup_lookup _ _ _ _ Hnodup Hi Hx). lia.
    - intros r' (r & -> & Hr)%list_elem_of_fmap.
      destruct (Hpos r Hr) as (i & Hi & ->).
      apply lookup_lt_Some in Hi. lia. }
  unfold store. rewrite create_appointment_run.
  - rewrite Hbucket, Hmax. simpl. eexists. split; [reflexivity|]. simpl.
    split; [done|lia].
  - rewrite Hdb1. simpl. intros r (r0 & -> & Hr0)%list_elem_of_fmap. simpl.
    by apply Hfresh.
Qed.

(** ** Comma-separated id lists *)

Lemma split_from_pieces sep cur s piece :
  piece ∈ split_from sep cur s → sep ∉ chars cur → sep ∉ chars piece.
Proof.
  revert cur. induction s as [|c s IH]; intros cur Hin Hcur; simpl in Hin.
  - by apply list_elem_of_singleton in Hin as ->.
  - destruct (decide (c = sep)) as [->|Hne].
    + apply elem_of_cons in Hin as [->|Hin]; [done|].
      apply (IH ""); [done|]. apply not_elem_of_nil.
    + apply (IH _ Hin). rewrite chars_append. simpl.
      rewrite elem_of_app, list_elem_of_singleton. intros [?|?]; [done|congruence].
Qed.

Lemma split_from_append sep cur x rest :
  sep ∉ chars x → split_from sep cur (x +:+ rest) = split_from sep (cur +:+ x) rest.
Proof.
  revert cur. induction x as [|c x IH]; intros cur Hx.
  - by rewrite append_empty_r.
  - unfold chars in Hx. simpl in Hx. apply not_elem_of_cons in Hx as [Hc Hx].
    rewrite append_cons. simpl. rewrite decide_False by done. rewrite IH by done.
    by rewrite append_assoc.
Qed.

Lemma split_join sep l :
  l ≠ [] → (∀ x, x ∈ l → sep ∉ chars x) →
  split sep (join (String sep "") l) = l.
Proof.
  unfold split. induction l as [|x l IH]; intros Hne Hall; [done|].
  destruct l as [|y l].
  - simpl. rewrite <- (append_empty_r x) at 1.
    rewrite split_from_append by (apply Hall; left). done.
  - change (join (String sep "") (x :: y :: l))
      with (x +:+ String sep (join (String sep "") (y :: l))).
    rewrite split_from_append by (apply Hall; left).
    simpl split_from at 1. rewrite decide_True by done.
    f_equal. apply IH; [done|]. intros z Hz. apply Hall. by right.
Qed.

Lemma get_doctors_batch_run ids db :
  get_doctors_batch ids db =
  (Ok (order_by_id (filter (λ r, DoctorRow.id r ∈ split "," ids) (doctors db))), db).
Proof.
  unfold get_doctors_batch.
  destruct (split "," ids) eqn:E; [by apply split_nonempty in E|done].
Qed.

Lemma get_global_blocks_run doctor_ids db :
  get_global_blocks doctor_ids db =
  (Ok (filter (λ row, row.1.1 ∈ split "," doctor_ids) (elements (global_blocks db))), db).
Proof.
  unfold get_global_blocks.
  destruct (split "," doctor_ids) eqn:E; [by apply split_nonempty in E|done].
Qed.

(** X17. The batch reads cannot reach an id that contains a comma:
    whatever string is passed, [get_doctors_batch] returns no practitioner
    whose id contains one, [get_appointments] no appointment whose
    practitioner id does, and [get_global_blocks] no block whose
    practitioner id does, stored or not. *)
Theorem batch_reads_never_return_ids_with_a_comma ids db :
  (∀ rows r, response (get_doctors_batch ids) db = Ok rows → r ∈ rows →
     ","%char ∉ chars (DoctorRow.id r)) ∧
  (∀ rows r, response (get_appointments ids) db = Ok rows → r ∈ rows →
     ","%char ∉ chars (AppointmentRow.doctor_id r)) ∧
  (∀ rows row, response (get_global_blocks ids) db = Ok rows → row ∈ rows →
     ","%char ∉ chars row.1.1).
Proof.
  assert (∀ x, x ∈ split "," ids → ","%char ∉ chars x) as Hpieces.
  { intros x Hx. eapply split_from_pieces; [exact Hx|]. apply not_elem_of_nil. }
  split_and!.
  - intros rows r. unfold response. rewrite get_doctors_batch_run. simpl.
    intros [= <-]. rewrite elem_of_order_by_id.
    intros [Hsel _]%list_elem_of_filter. by apply Hpieces.
  - intros rows r. unfold response. rewrite get_appointments_run. simpl.
    intros [= <-]. rewrite elem_of_order_by_rank.
    intros [Hsel _]%list_elem_of_filter. by apply Hpieces.
  - intros rows row. unfold response. rewrite get_global_blocks_run. simpl.
    intros [= <-] [Hsel _]%list_elem_of_filter. by apply Hpieces.
Qed.

(** X18. Ids joined with commas come back out: for a non-empty list of
    ids none of which contains a comma, splitting the joined string gives
    the list again, so [get_doctors_batch] on the joined string returns
    exactly the practitioners whose id is in the list, each as often as
    it is stored, and [get_appointments] exactly the appointments of
    those practitioners, by rank. *)
Theorem batch_reads_select_the_joined_ids ids db :
  ids ≠ [] →
  (∀ x, x ∈ ids → ","%char ∉ chars x) →
  split "," (join "," ids) = ids ∧
  (∃ rows,
     get_doctors_batch (join "," ids) db = (Ok rows, db) ∧
     rows ≡ₚ filter (λ r, DoctorRow.id r ∈ ids) (doctors db) ∧
     (∀ r, r ∈ rows ↔ r ∈ doctors db ∧ DoctorRow.id r ∈ ids)) ∧
  get_appointments (join "," ids) db =
    (Ok (order_by_rank (filter (λ r, AppointmentRow.doctor_id r ∈ ids)
                               (appointments db))), db).
Proof.
  intros Hne Hall. pose proof (split_join "," ids Hne Hall) as Hsplit.
  split; [done|]. split.
  - exists (order_by_id (filter (λ r, DoctorRow.id r ∈ ids) (doctors db))).
    split; [rewrite get_doctors_batch_run; by rewrite Hsplit|].
    split; [apply order_by_id_perm|].
    intros r. rewrite elem_of_order_by_id, list_elem_of_filter. tauto.
  - rewrite get_appointments_run. by rewrite Hsplit.
Qed.

(** ** Blocked days and sessions, as they are listed *)

Lemma second_components_spec (s : gset (string * string)) (d : string) :
  (∀ t, t ∈ (filter (λ row, row.1 = d) (elements s)).*2 ↔ (d, t) ∈ s) ∧
  NoDup ((filter (λ row, row.1 = d) (elements s)).*2).
Proof.
  split.
  - intros t. rewrite list_elem_of_fmap. split.
    + intros ([d' t'] & -> & [Hd Hin]%list_elem_of_filter). simpl in *. subst d'.
      by apply elem_of_elements in Hin.
    + intros Hin. exists (d, t). split; [done|].
      apply list_elem_of_filter. split; [done|]. by apply elem_of_elements.
  - apply NoDup_fmap_2_strong.
    + intros [d1 t1] [d2 t2] [Hd1 _]%list_elem_of_filter [Hd2 _]%list_elem_of_filter.
      simpl in *. congruence.
    + apply NoDup_filter, NoDup_elements.
Qed.

(** X19. What [get_blocked_days] lists follows the toggles: it returns
    the days blocked for the practitioner, each once, and after
    [toggle_blocked_day] on (practitioner, day) that practitioner's list
    has gained the day if it was not in it and lost it if it was, while
    every other day and every other practitioner's list is as before. *)
Theorem blocked_days_follow_the_toggle data doctor_id db :
  let db' := store (toggle_blocked_day data) db in
  ∃ before after,
    get_blocked_days doctor_id db = (Ok before, db) ∧
    get_blocked_days doctor_id db' = (Ok after, db') ∧
    NoDup before ∧ NoDup after ∧
    (∀ day, day ∈ before ↔ (doctor_id, day) ∈ blocked_days db) ∧
    (∀ day, day ∈ after ↔
       if decide (doctor_id = BlockedDay.doctor_id data ∧ day = BlockedDay.day data)
       then day ∉ before else day ∈ before).
Proof.
  intros db'.
  destruct (second_components_spec (blocked_days db) doctor_id) as [Hb Hbn].
  destruct (second_components_spec (blocked_days db') doctor_id) as [Ha Han].
  exists ((filter (λ row, row.1 = doctor_id) (elements (blocked_days db))).*2),
         ((filter (λ row, row.1 = doctor_id) (elements (blocked_days db'))).*2).
  split; [reflexivity|]. split; [reflexivity|].
  split; [done|]. split; [done|]. split; [done|].
  intros day. rewrite Ha.
  destruct (decide (_ ∧ _)) as [[-> ->]|Hne]; rewrite Hb;
    unfold db', store; rewrite toggle_blocked_day_run;
    destruct (decide (_ ∈ blocked_days db)) as [Hin|Hout]; simpl; set_solver.
Qed.

(** X20. What [get_global_blocks] lists follows the toggles: it returns,
    each once, the blocks of the practitioners named in the
    comma-separated list, and after [toggle_global_block] on a block the
    listing of a practitioner list that names its practitioner has gained
    the block if it was absent and lost it if it was present, every other
    block being listed as before. *)
Theorem global_blocks_follow_the_toggle data doctor_ids db :
  let key := (GlobalBlock.doctor_id data, GlobalBlock.day_of_week data,
              GlobalBlock.session data) in
  let db' := store (toggle_global_block data) db in
  ∃ before after,
    get_global_blocks doctor_ids db = (Ok before, db) ∧
    get_global_blocks doctor_ids db' = (Ok after, db') ∧
    NoDup before ∧ NoDup after ∧
    (∀ row, row ∈ before ↔
       row ∈ global_blocks db ∧ row.1.1 ∈ split "," doctor_ids) ∧
    (∀ row, row ∈ after ↔
       if decide (row = key)
       then (row ∉ before) ∧ GlobalBlock.doctor_id data ∈ split "," doctor_ids
       else row ∈ before).
Proof.
  intros key db'. eexists _, _.
  split; [apply get_global_blocks_run|]. split; [apply get_global_blocks_run|].
  split; [apply NoDup_filter, NoDup_elements|].
  split; [apply NoDup_filter, NoDup_elements|].
  split.
  - intros row. rewrite list_elem_of_filter, elem_of_elements. tauto.
  - intros row. unfold db', store. rewrite toggle_global_block_run. fold key. simpl.
    generalize (split "," doctor_ids). intros ids.
    destruct (decide (row = key)) as [->|Hne];
      rewrite !list_elem_of_filter, !elem_of_elements;
      destruct (decide (key ∈ global_blocks db)) as [Hin|Hout];
      rewrite ?elem_of_difference, ?elem_of_union, ?elem_of_singleton; simpl;
      tauto.
Qed.

(** ** Display colors, again *)

(** X21. [get_random_color] turns distinct draws into distinct colors,
    and a draw from 0 to 0xFFFFFF into [#] followed by exactly six
    characters, each one of 0-9 and a-f: 0 gives #000000 and 0xFFFFFF
    gives #ffffff. *)
Theorem get_random_color_is_six_hex_digits :
  (∀ n m, get_random_color n = get_random_color m → n = m) ∧
  (∀ n, (n ≤ 0xFFFFFF)%N →
     ∃ digits,
       get_random_color n = String "#" digits ∧
       String.length digits = 6%nat ∧
       ∀ c, c ∈ chars digits → c ∈ chars "0123456789abcdef") ∧
  get_random_color 0 = "#000000" ∧
  get_random_color 0xFFFFFF = "#ffffff".
Proof.
  split_and!; [| |done|done].
  - intros n m Heq. unfold get_random_color in Heq.
    rewrite !append_cons in Heq. injection Heq as Heq.
    change ("" +:+ format_06x n) with (format_06x n) in Heq.
    change ("" +:+ format_06x m) with (format_06x m) in Heq.
    by rewrite <- (hex_value_format_06x n), <- (hex_value_format_06x m), Heq.
  - intros n Hn. exists (format_06x n). split; [done|]. split.
    + pose proof (get_random_color_length n Hn) as Hlen.
      unfold get_random_color in Hlen. rewrite length_append in Hlen.
      simpl in Hlen. lia.
    + intros c. unfold format_06x. cbv zeta. rewrite chars_append.
      intros [Hc|Hc]%elem_of_app; [by eapply zeros_are_hex|].
      eapply hex_digits_are_hex; [|exact Hc].
      intros c' Hc'. by apply elem_of_nil in Hc'.
Qed.

(** ** Invariants of the reachable databases *)

Section nodup_columns.
Context {A B : Type} (f : A → B).

Lemma NoDup_fmap_snoc (l : list A) (x : A) :
  NoDup (f <$> l) → (∀ y, y ∈ l → f y ≠ f x) → NoDup (f <$> (l ++ [x])).
Proof.
  intros Hnd Hfresh. rewrite fmap_app. apply NoDup_app. split; [done|]. split.
  - intros b (y & -> & Hy)%list_elem_of_fmap Hb.
    apply list_elem_of_singleton in Hb. by apply (Hfresh y).
  - apply NoDup_singleton.
Qed.

Lemma NoDup_fmap_filter (P : A → Prop) `{!∀ x, Decision (P x)} (l : list A) :
  NoDup (f <$> l) → NoDup (f <$> filter P l).
Proof.
  induction l as [|h t IH]; [done|]. rewrite fmap_cons, NoDup_cons.
  intros [Hh Ht]. rewrite filter_cons. destruct (decide (P h)); [|by apply IH].
  rewrite fmap_cons. apply NoDup_cons. split; [|by apply IH].
  intros (y & Hy & [_ Hin]%list_elem_of_filter)%list_elem_of_fmap.
  apply Hh. apply list_elem_of_fmap. eauto.
Qed.

Lemma NoDup_fmap_fmap (g : A → A) (l : list A) :
  (∀ x, f (g x) = f x) → NoDup (f <$> l) → NoDup (f <$> (g <$> l)).
Proof.
  intros Hg Hnd. rewrite <- list_fmap_compose.
  erewrite list_fmap_ext; [exact Hnd|]. intros i x _. apply Hg.
Qed.

Lemma NoDup_fmap_same (l : list A) (x y : A) :
  NoDup (f <$> l) → x ∈ l → y ∈ l → f x = f y → x = y.
Proof.
  intros Hnd [i Hi]%list_elem_of_lookup [j Hj]%list_elem_of_lookup Hxy.
  assert (i = j) as ->.
  { eapply NoDup_lookup; [exact Hnd| |]; rewrite list_lookup_fmap.
    - by rewrite Hi.
    - rewrite Hj. simpl. by rewrite Hxy. }
  congruence.
Qed.
End nodup_columns.

Lemma final_rank_nonneg index ids x old :
  0 ≤ index → 0 ≤ old → 0 ≤ final_rank index ids x old.
Proof.
  revert index old. induction ids as [|y ids IH]; intros index old Hi Ho; simpl; [done|].
  apply IH; [lia|]. by destruct (decide (x = y)).
Qed.

Lemma register_store uuid4 randint doctor db :
  store (register uuid4 randint doctor) db = db ∨
  ((∀ d, d ∈ doctors db → DoctorRow.student_id d ≠ Doctor.student_id doctor) ∧
   (∀ d, d ∈ doctors db → DoctorRow.id d ≠ uuid4) ∧
   store (register uuid4 randint doctor) db =
     with_doctors (doctors db ++ [registered_row uuid4 randint doctor]) db).
Proof.
  destruct (response (register uuid4 randint doctor) db) as [ret|e] eqn:Hresp.
  - right. apply register_Ok_inv in Hresp as [Hsid Hid].
    split; [done|]. split; [done|]. unfold store. by rewrite register_run_fresh.
  - left. revert Hresp. unfold register, insert_doctors. run_endpoint.
    destruct (head (filter _ (doctors db))); [done|]. simpl.
    by destruct (decide (Exists _ (doctors db))).
Qed.

Lemma send_match_request_store uuid4 req db :
  store (send_match_request uuid4 req) db = db ∨
  ((∃ target, target ∈ doctors db ∧
      DoctorRow.student_id target = MatchRequest.to_student_id req ∧
      DoctorRow.id target ≠ MatchRequest.from_id req) ∧
   (∀ r, r ∈ match_requests db → MatchRequestRow.id r ≠ uuid4) ∧
   store (send_match_request uuid4 req) db =
     with_match_requests (match_requests db ++ [requested_row uuid4 req]) db).
Proof.
  destruct (response (send_match_request uuid4 req) db) as [msg|e] eqn:Hresp.
  - right. apply send_match_request_Ok_inv in Hresp
      as (_ & (target & Htarget & Hne) & Hfresh & Hstore).
    apply fetchone_Some in Htarget as [Hin Hsid]. eauto 10.
  - left. revert Hresp. unfold response, store. rewrite send_match_request_run.
    destruct (head (filter _ (doctors db))) as [target|]; [|done].
    destruct (decide (DoctorRow.id target = _)); [done|].
    by destruct (decide (Exists _ (match_requests db))).
Qed.

Lemma add_patient_store uuid4 p db :
  store (add_patient uuid4 p) db = db ∨
  ((∀ r, r ∈ patients db → PatientRow.id r ≠ uuid4) ∧
   store (add_patient uuid4 p) db =
     with_patients
       (patients db ++ [PatientRow.mk uuid4 (Patient.doctor_id p) (Patient.name p)
                          (Some (or_empty (Patient.r4 p)))]) db).
Proof.
  destruct (response (add_patient uuid4 p) db) as [ret|e] eqn:Hresp.
  - right. by apply add_patient_Ok_store in Hresp.
  - left. revert Hresp. unfold add_patient, insert_patients. run_endpoint.
    by destruct (decide (Exists _ (patients db))).
Qed.

Lemma create_appointment_store uuid4 appt db :
  store (create_appointment uuid4 appt) db = db ∨
  ((∀ r, r ∈ appointments db → AppointmentRow.id r ≠ uuid4) ∧
   store (create_appointment uuid4 appt) db =
     with_appointments
       (appointments db ++
        [inserted_row uuid4 appt
           ((match max_rank (bucket_of appt db) with Some m => m | None => 0 end) + 1)])
       db).
Proof.
  destruct (response (create_appointment uuid4 appt) db) as [ret|e] eqn:Hresp.
  - right. by apply create_appointment_Ok_store in Hresp.
  - left. revert Hresp. unfold create_appointment, insert_appointments. run_endpoint.
    by destruct (decide (Exists _ (appointments db))).
Qed.

Lemma login_store creds db : store (login creds) db = db.
Proof.
  unfold store, login. run_endpoint.
  by destruct (head (filter _ (doctors db))).
Qed.

Lemma get_me_store id db : store (get_me id) db = db.
Proof.
  unfold store, get_me. run_endpoint.
  by destruct (head (filter _ (doctors db))).
Qed.

Ltac split_invariant :=
  unfold invariant, keys_unique, requests_resolvable, no_self_match,
    stored_values_ok in *;
  destruct_and?; split_and!; simpl; try done.

Lemma invariant_register uuid4 randint doctor db :
  invariant db → invariant (store (register uuid4 randint doctor) db).
Proof.
  intros Hinv. destruct (register_store uuid4 randint doctor db)
    as [->|(Hsid & Hid & ->)]; [done|].
  destruct Hinv as ((K1 & K2 & K3 & K4 & K5) & Hres & Hself & Hval).
  split_invariant.
  - apply NoDup_fmap_snoc; [done|]. intros y Hy. simpl. by apply Hid.
  - apply NoDup_fmap_snoc; [done|]. intros y Hy. simpl. by apply Hsid.
  - intros q Hq. destruct (Hres q Hq) as (d & Hd & Hd').
    exists d. split; [|done]. simpl. apply elem_of_app. by left.
Qed.

Lemma invariant_update_color doctor_id color db :
  invariant db → invariant (store (update_color doctor_id color) db).
Proof.
  intros ((K1 & K2 & K3 & K4 & K5) & Hres & Hself & Hval).
  set (f := λ r, if decide (DoctorRow.id r = doctor_id) then recolored color r else r).
  assert (store (update_color doctor_id color) db = with_doctors (f <$> doctors db) db)
    as -> by done.
  assert (∀ x, DoctorRow.id (f x) = DoctorRow.id x) as Hfid
    by (intros x; unfold f; by destruct (decide _)).
  assert (∀ x, DoctorRow.student_id (f x) = DoctorRow.student_id x) as Hfsid
    by (intros x; unfold f; by destruct (decide _)).
  split_invariant.
  - by apply NoDup_fmap_fmap.
  - by apply NoDup_fmap_fmap.
  - intros q Hq. destruct (Hres q Hq) as (d & Hd & Hs & Hi).
    exists (f d). simpl. split; [apply list_elem_of_fmap; eauto|].
    by rewrite Hfid, Hfsid.
Qed.

Lemma invariant_send_match_request uuid4 req db :
  invariant db → invariant (store (send_match_request uuid4 req) db).
Proof.
  intros Hinv. destruct (send_match_request_store uuid4 req db)
    as [->|((target & Hin & Hsid & Hne) & Hfresh & ->)]; [done|].
  destruct Hinv as ((K1 & K2 & K3 & K4 & K5) & Hres & Hself & Hval).
  split_invariant.
  - apply NoDup_fmap_snoc; [done|]. intros y Hy. simpl. by apply Hfresh.
  - intros q. simpl. intros [Hq| ->%list_elem_of_singleton]%elem_of_app.
    + by apply Hres.
    + exists target. done.
Qed.

Lemma invariant_accept_match req_id db :
  invariant db → invariant (store (accept_match req_id) db).
Proof.
  intros ((K1 & K2 & K3 & K4 & K5) & Hres & Hself & Hval).
  unfold store. rewrite accept_match_run.
  destruct (head (filter _ (match_requests db))) as [req|] eqn:Hreq; [|done].
  apply fetchone_Some in Hreq as [Hreq _]. simpl.
  assert (∀ db0, doctors db0 = doctors db → match_requests db0 = match_requests db →
                 requests_resolvable
                   (with_match_requests
                      (filter (λ r, MatchRequestRow.id r ≠ req_id) (match_requests db))
                      db0)) as Hres'.
  { intros db0 Hd Hm q. simpl. intros [_ Hq]%list_elem_of_filter.
    rewrite Hd. by apply Hres. }
  destruct (head (filter _ (doctors db))) as [target|] eqn:Htarget.
  - apply fetchone_Some in Htarget as [Htin Htsid].
    split_invariant.
    + by apply NoDup_fmap_filter.
    + by apply Hres'.
    + destruct (Hres req Hreq) as (d & Hd & Hdsid & Hdne).
      assert (d = target) as ->.
      { eapply (NoDup_fmap_same DoctorRow.student_id); [exact K2|done|done|congruence]. }
      intros a b. simpl. rewrite !elem_of_union, !elem_of_singleton.
      intros [[Hab|[= -> ->]]|[= -> ->]]; [by apply Hself|done|congruence].
  - split_invariant.
    + by apply NoDup_fmap_filter.
    + by apply Hres'.
Qed.

Lemma invariant_remove_match doctor_id target_id db :
  invariant db → invariant (store (remove_match doctor_id target_id) db).
Proof.
  intros ((K1 & K2 & K3 & K4 & K5) & Hres & Hself & Hval).
  split_invariant.
  intros a b. simpl. rewrite elem_of_difference. intros [Hab _]. by apply Hself.
Qed.

Lemma invariant_add_patient uuid4 p db :
  invariant db → invariant (store (add_patient uuid4 p) db).
Proof.
  intros Hinv. destruct (add_patient_store uuid4 p db) as [->|(Hfresh & ->)]; [done|].
  destruct Hinv as ((K1 & K2 & K3 & K4 & K5) & Hres & Hself & Hrank & Hr4).
  split_invariant.
  - apply NoDup_fmap_snoc; [done|]. intros y Hy. simpl. by apply Hfresh.
  - intros q. simpl. intros [Hq| ->%list_elem_of_singleton]%elem_of_app; [by apply Hr4|done].
Qed.

Lemma invariant_delete_patient pid db :
  invariant db → invariant (store (delete_patient pid) db).
Proof.
  intros ((K1 & K2 & K3 & K4 & K5) & Hres & Hself & Hrank & Hr4).
  split_invariant.
  - by apply NoDup_fmap_filter.
  - intros q. simpl. intros [_ Hq]%list_elem_of_filter. by apply Hr4.
Qed.

Lemma invariant_create_appointment uuid4 appt db :
  invariant db → invariant (store (create_appointment uuid4 appt) db).
Proof.
  intros Hinv. destruct (create_appointment_store uuid4 appt db)
    as [->|(Hfresh & ->)]; [done|].
  destruct Hinv as ((K1 & K2 & K3 & K4 & K5) & Hres & Hself & Hrank & Hr4).
  split_invariant.
  - apply NoDup_fmap_snoc; [done|]. intros y Hy. simpl. by apply Hfresh.
  - intros r. simpl. intros [Hr| ->%list_elem_of_singleton]%elem_of_app; [by apply Hrank|].
    simpl. destruct (max_rank (bucket_of appt db)) as [m|] eqn:Hm; [|lia].
    apply max_rank_Some in Hm as [(r & Hr & <-) _].
    apply list_elem_of_filter in Hr as [_ Hr]. specialize (Hrank r Hr). lia.
Qed.

Lemma invariant_delete_appointment appt_id db :
  invariant db → invariant (store (delete_appointment appt_id) db).
Proof.
  intros ((K1 & K2 & K3 & K4 & K5) & Hres & Hself & Hrank & Hr4).
  split_invariant.
  - by apply NoDup_fmap_filter.
  - intros q. simpl. intros [_ Hq]%list_elem_of_filter. by apply Hrank.
Qed.

Lemma invariant_reorder_appointments req db :
  invariant db → invariant (store (reorder_appointments req) db).
Proof.
  intros ((K1 & K2 & K3 & K4 & K5) & Hres & Hself & Hrank & Hr4).
  unfold store. rewrite reorder_appointments_run. simpl.
  split_invariant.
  - by apply NoDup_fmap_fmap.
  - intros r. simpl. intros (r0 & -> & Hr0)%list_elem_of_fmap. simpl.
    apply final_rank_nonneg; [done|by apply Hrank].
Qed.

Lemma invariant_move_appointment appt_id req db :
  invariant db → invariant (store (move_appointment appt_id req) db).
Proof.
  intros ((K1 & K2 & K3 & K4 & K5) & Hres & Hself & Hrank & Hr4).
  split_invariant.
  - apply NoDup_fmap_fmap; [|done]. intros x. by destruct (decide _).
  - intros r. simpl. intros (r0 & -> & Hr0)%list_elem_of_fmap.
    destruct (decide _); simpl; by apply Hrank.
Qed.

Lemma invariant_toggle_blocked_day data db :
  invariant db → invariant (store (toggle_blocked_day data) db).
Proof.
  intros Hinv. unfold store. rewrite toggle_blocked_day_run.
  by destruct (decide (_ ∈ blocked_days db)).
Qed.

Lemma invariant_toggle_global_block data db :
  invariant db → invariant (store (toggle_global_block data) db).
Proof. intros Hinv. unfold store. by rewrite toggle_global_block_run. Qed.

Lemma invariant_handle q db : invariant db → invariant (handle q db).
Proof.
  intros Hinv. destruct q; simpl.
  - by apply invariant_register.
  - by rewrite login_store.
  - by rewrite get_me_store.
  - unfold store. by rewrite get_doctors_batch_run.
  - by apply invariant_update_color.
  - by apply invariant_send_match_request.
  - done.
  - by apply invariant_accept_match.
  - by apply invariant_remove_match.
  - done.
  - by apply invariant_add_patient.
  - by apply invariant_delete_patient.
  - unfold store. by rewrite get_appointments_run.
  - by apply invariant_create_appointment.
  - by apply invariant_delete_appointment.
  - by apply invariant_reorder_appointments.
  - by apply invariant_move_appointment.
  - done.
  - by apply invariant_toggle_blocked_day.
  - unfold store. by rewrite get_global_blocks_run.
  - by apply invariant_toggle_global_block.
Qed.

Lemma invariant_init_db : invariant init_db.
Proof.
  unfold invariant, keys_unique, requests_resolvable, no_self_match,
    stored_values_ok; split_and!; simpl; try apply NoDup_nil_2.
  - intros q Hq. by apply elem_of_nil in Hq.
  - intros a b Hab. by apply elem_of_empty in Hab.
  - intros r Hr. by apply elem_of_nil in Hr.
  - intros p Hp. by apply elem_of_nil in Hp.
Qed.

Lemma reachable_invariant db : reachable db → invariant db.
Proof.
  induction 1 as [|q db _ IH]; [apply invariant_init_db|by apply invariant_handle].
Qed.

(** X22. The uniqueness constraints of the schema hold in every database
    the interface can produce from the empty one: no two practitioners
    share an id or a student id, and no two requests, no two patients and
    no two appointments share an id. *)
Theorem reachable_keys_are_unique db :
  reachable db →
  NoDup (DoctorRow.id <$> doctors db) ∧
  NoDup (DoctorRow.student_id <$> doctors db) ∧
  NoDup (MatchRequestRow.id <$> match_requests db) ∧
  NoDup (PatientRow.id <$> patients db) ∧
  NoDup (AppointmentRow.id <$> appointments db).
Proof. intros Hr. by destruct (reachable_invariant db Hr) as [Hkeys _]. Qed.

(** X23. In a database the interface has produced, a pending request can
    always be accepted in full: the practitioner it addresses exists and
    is not the sender, so [accept_match] on its id answers "Matched",
    links the two in both directions and removes the request; the branch
    of [accept_match] that skips the links is never taken. *)
Theorem reachable_requests_always_link db req :
  reachable db → req ∈ match_requests db →
  let db' := store (accept_match (MatchRequestRow.id req)) db in
  ∃ target,
    target ∈ doctors db ∧
    DoctorRow.student_id target = MatchRequestRow.to_student_id req ∧
    DoctorRow.id target ≠ MatchRequestRow.from_id req ∧
    response (accept_match (MatchRequestRow.id req)) db = Ok "Matched" ∧
    (DoctorRow.id target, MatchRequestRow.from_id req) ∈ matches db' ∧
    (MatchRequestRow.from_id req, DoctorRow.id target) ∈ matches db' ∧
    req ∉ match_requests db'.
Proof.
  intros Hr Hreq db'.
  destruct (reachable_invariant db Hr) as ((_ & K2 & K3 & _) & Hres & _).
  destruct (Hres req Hreq) as (target & Htin & Hsid & Hne).
  exists target. split; [done|]. split; [done|]. split; [done|].
  assert (head (filter (λ r, MatchRequestRow.id r = MatchRequestRow.id req)
                       (match_requests db)) = Some req) as Hhead.
  { destruct (head (filter _ (match_requests db))) as [req'|] eqn:Hh.
    - apply fetchone_Some in Hh as [Hin' Hid']. f_equal.
      by eapply (NoDup_fmap_same MatchRequestRow.id).
    - rewrite fetchone_None in Hh. by destruct (Hh req Hreq). }
  assert (head (filter (λ r, DoctorRow.student_id r = MatchRequestRow.to_student_id req)
                       (doctors db)) = Some target) as Hhead'.
  { destruct (head (filter _ (doctors db))) as [t'|] eqn:Hh.
    - apply fetchone_Some in Hh as [Hin' Hsid']. f_equal.
      eapply (NoDup_fmap_same DoctorRow.student_id); [exact K2|done|done|congruence].
    - rewrite fetchone_None in Hh. by destruct (Hh target Htin). }
  unfold db', response, store. rewrite accept_match_run, Hhead, Hhead'. simpl.
  split_and!; [done | set_solver | set_solver |].
  intros [Hid _]%list_elem_of_filter. done.
Qed.

(** X24. No practitioner is ever connected to themselves: in a database
    the interface has produced, the connection table holds no pair
    (id, id), so the connection list [get_me] returns for an id never
    contains that id. *)
Theorem reachable_has_no_self_connection db :
  reachable db →
  (∀ a b, (a, b) ∈ matches db → a ≠ b) ∧
  (∀ id doc ms, response (get_me id) db = Ok (doc, ms) → id ∉ ms).
Proof.
  intros Hr. destruct (reachable_invariant db Hr) as (_ & _ & Hself & _).
  split; [exact Hself|]. intros id doc ms.
  destruct (get_me_run id db) as (ms0 & Hms0 & _ & Hrun).
  unfold response. rewrite Hrun.
  destruct (head (filter _ (doctors db))); [|done]. simpl. intros [= _ <-].
  rewrite Hms0. intros Hin. by apply (Hself id id).
Qed.

(** X25. In a database the interface has produced every stored rank is
    at least 0 (creation gives out ranks from 1, reordering from 0), and
    every patient has a secondary identifier that is not NULL, although
    the column allows it. *)
Theorem reachable_stored_values db :
  reachable db →
  (∀ r, r ∈ appointments db → 0 ≤ AppointmentRow.rank r) ∧
  (∀ p, p ∈ patients db → ∃ s, PatientRow.r4 p = Some s).
Proof.
  intros Hr. destruct (reachable_invariant db Hr) as (_ & _ & _ & Hrank & Hr4).
  split; [exact Hrank|]. intros p Hp. specialize (Hr4 p Hp).
  destruct (PatientRow.r4 p); [eauto|done].
Qed.

Lemma doctors_persist_step q db d :
  d ∈ doctors db → ∃ d', d' ∈ doctors (handle q db) ∧ same_credentials d d'.
Proof.
  intros Hd.
  assert (same_credentials d d) as Hrefl by (by unfold same_credentials).
  assert (∀ db0, doctors db0 = doctors db →
                 ∃ d', d' ∈ doctors db0 ∧ same_credentials d d') as Hsame.
  { intros db0 ->. eauto. }
  destruct q; simpl.
  - destruct (register_store uuid4 randint doctor db) as [->|(_ & _ & ->)]; [eauto|].
    exists d. split; [|done]. simpl. apply elem_of_app. by left.
  - rewrite login_store. eauto.
  - rewrite get_me_store. eauto.
  - unfold store. rewrite get_doctors_batch_run. eauto.
  - set (f := λ r, if decide (DoctorRow.id r = doctor_id) then recolored color r else r).
    exists (f d). split.
    + change (f d ∈ f <$> doctors db). apply list_elem_of_fmap. eauto.
    + unfold f. by destruct (decide _).
  - destruct (send_match_request_store uuid4 req db) as [->|(_ & _ & ->)]; eauto.
  - eauto.
  - apply Hsame. unfold store. rewrite accept_match_run.
    destruct (head (filter _ (match_requests db))); [|done]. simpl.
    by destruct (head (filter _ (doctors db))).
  - eauto.
  - eauto.
  - destruct (add_patient_store uuid4 p db) as [->|(_ & ->)]; eauto.
  - eauto.
  - unfold store. rewrite get_appointments_run. eauto.
  - destruct (create_appointment_store uuid4 appt db) as [->|(_ & ->)]; eauto.
  - eauto.
  - apply Hsame. unfold store. by rewrite reorder_appointments_run.
  - eauto.
  - eauto.
  - apply Hsame. unfold store. rewrite toggle_blocked_day_run.
    by destruct (decide (_ ∈ blocked_days db)).
  - unfold store. rewrite get_global_blocks_run. eauto.
  - apply Hsame. unfold store. by rewrite toggle_global_block_run.
Qed.

Lemma doctors_persist qs db d :
  d ∈ doctors db → ∃ d', d' ∈ doctors (handle_all qs db) ∧ same_credentials d d'.
Proof.
  revert db d. induction qs as [|q qs IH]; intros db d Hd.
  - exists d. by unfold same_credentials.
  - destruct (doctors_persist_step q db d Hd) as (d1 & Hd1 & Hc1).
    destruct (IH (handle q db) d1 Hd1) as (d2 & Hd2 & Hc2).
    exists d2. split; [done|]. unfold same_credentials in *.
    destruct_and!. split_and!; congruence.
Qed.

(** X26. No sequence of requests removes a practitioner or changes a
    credential: a practitioner stored in a database is still stored after
    any requests, with the same id, student id, username, password, phone
    and country code, and a login that succeeded before succeeds
    afterwards. *)
Theorem practitioners_and_credentials_persist qs db d :
  d ∈ doctors db →
  (∃ d', d' ∈ doctors (handle_all qs db) ∧
     DoctorRow.id d' = DoctorRow.id d ∧
     DoctorRow.student_id d' = DoctorRow.student_id d ∧
     DoctorRow.username d' = DoctorRow.username d ∧
     DoctorRow.password d' = DoctorRow.password d ∧
     DoctorRow.phone d' = DoctorRow.phone d ∧
     DoctorRow.country_code d' = DoctorRow.country_code d) ∧
  ∃ doc ms,
    response (login (LoginRequest.mk (DoctorRow.student_id d) (DoctorRow.password d)))
             (handle_all qs db) = Ok (doc, ms) ∧
    DoctorRow.student_id doc = DoctorRow.student_id d ∧
    DoctorRow.password doc = DoctorRow.password d.
Proof.
  intros Hd. destruct (doctors_persist qs db d Hd) as (d' & Hd' & Hc).
  split; [by exists d'|].
  destruct Hc as (_ & Hsid & _ & Hpw & _).
  destruct (head (filter (λ r, DoctorRow.student_id r = DoctorRow.student_id d ∧
                               DoctorRow.password r = DoctorRow.password d)
                         (doctors (handle_all qs db)))) as [doc|] eqn:Hdoc.
  - destruct (login_run_Some
                (LoginRequest.mk (DoctorRow.student_id d) (DoctorRow.password d))
                _ doc Hdoc) as (ms & Hrun & _).
    apply fetchone_Some in Hdoc as (_ & Hs & Hp).
    exists doc, ms. unfold response. by rewrite Hrun.
  - rewrite fetchone_None in Hdoc. by destruct (Hdoc d' Hd').
Qed.

(** ** The further properties at the sample data *)

Lemma reachable_pending_request : reachable pending_request.
Proof.
  apply (reachable_step (SendMatchRequest "q1" (MatchRequest.mk None "d1" "ann" "s2"))).
  apply (reachable_step (Register "d2" 255 bob)).
  apply (reachable_step (Register "d1" 0 ann)).
  apply reachable_init.
Qed.

Lemma ann_request_is_sent :
  response (send_match_request "q1" (MatchRequest.mk None "d1" "ann" "s2")) two_doctors
  = Ok "Request sent".
Proof. reflexivity. Qed.

(** X2 at the sample data. *)
Lemma ann_request_is_listed_for_bob :
  response (send_match_request "q1" (MatchRequest.mk None "d1" "ann" "s2")) two_doctors
    = Ok "Request sent" ∧
  get_match_requests "s2" pending_request =
    (Ok [MatchRequestRow.mk "q1" "d1" "ann" "s2"], pending_request).
Proof.
  split; [exact ann_request_is_sent|].
  destruct (sent_request_is_listed "q1" (MatchRequest.mk None "d1" "ann" "s2")
              two_doctors _ ann_request_is_sent "s2") as (earlier & Hbefore & Hafter).
  injection Hbefore as <-. exact Hafter.
Defined.

(** X3 at the sample data. *)
Lemma bob_accepts_ann :
  response (send_match_request "q1" (MatchRequest.mk None "d1" "ann" "s2")) two_doctors
    = Ok "Request sent" ∧
  response (accept_match "q1") pending_request = Ok "Matched" ∧
  match_requests (store (accept_match "q1") pending_request) = match_requests two_doctors.
Proof.
  split; [exact ann_request_is_sent|].
  destruct (sent_request_can_be_accepted "q1" (MatchRequest.mk None "d1" "ann" "s2")
              two_doctors _ ann_request_is_sent) as (Hresp & Hreqs & _).
  split; [exact Hresp | exact Hreqs].
Defined.

Lemma bob_accepted : response (accept_match "q1") pending_request = Ok "Matched".
Proof. reflexivity. Qed.

(** X4 at the sample data. *)
Lemma bob_cannot_accept_twice :
  response (accept_match "q1") pending_request = Ok "Matched" ∧
  response (accept_match "q1") (store (accept_match "q1") pending_request)
  = Raise (HTTPException 404 None).
Proof.
  split; [exact bob_accepted|].
  unfold response at 1.
  by rewrite (accepted_request_is_gone "q1" pending_request _ bob_accepted).
Defined.

Lemma bob_the_patient_is_added :
  response (add_patient "p1" bob_the_patient) two_doctors
  = Ok (Patient.set_id (Some "p1") bob_the_patient).
Proof. reflexivity. Qed.

(** X8 at the sample data. *)
Lemma bob_the_patient_added_and_deleted :
  response (add_patient "p1" bob_the_patient) two_doctors
    = Ok (Patient.set_id (Some "p1") bob_the_patient) ∧
  store (delete_patient "p1") (store (add_patient "p1" bob_the_patient) two_doctors)
  = two_doctors.
Proof.
  split; [exact bob_the_patient_is_added|].
  exact (delete_patient_undoes_add_patient _ _ _ _ bob_the_patient_is_added).
Defined.

(** X10 at the sample data. *)
Lemma bob_the_patient_is_listed_for_d1 :
  response (add_patient "p1" bob_the_patient) two_doctors
    = Ok (Patient.set_id (Some "p1") bob_the_patient) ∧
  get_patients "d1" (store (add_patient "p1" bob_the_patient) two_doctors) =
    (Ok [PatientRow.mk "p1" "d1" "Bob" (Some "")],
     store (add_patient "p1" bob_the_patient) two_doctors).
Proof.
  split; [exact bob_the_patient_is_added|].
  destruct (add_patient_extends_one_list _ _ _ _ bob_the_patient_is_added)
    as (_ & _ & Hlists).
  destruct (Hlists "d1") as (before & Hbefore & Hafter).
  injection Hbefore as <-. exact Hafter.
Defined.

Lemma al_is_booked :
  response (create_appointment "a" (visit "Al")) init_db
  = Ok (Appointment.set_id (Some "a") (visit "Al")).
Proof. reflexivity. Qed.

(** X12 at the sample data. *)
Lemma al_booked_and_cancelled :
  response (create_appointment "a" (visit "Al")) init_db
    = Ok (Appointment.set_id (Some "a") (visit "Al")) ∧
  store (delete_appointment "a") (store (create_appointment "a" (visit "Al")) init_db)
  = init_db.
Proof.
  split; [exact al_is_booked|].
  exact (delete_appointment_undoes_create_appointment _ _ _ _ al_is_booked).
Defined.

(** X16 at the sample data: the bucket a, b, c reordered to c, a, b, and
    a fourth visit created. *)
Lemma fourth_visit_gets_rank_3 :
  let req := ReorderRequest.mk ["c"; "a"; "b"] in
  let db1 := store (reorder_appointments req) monday_morning in
  ReorderRequest.ids req ≡ₚ
    AppointmentRow.id <$> filter (in_bucket "d1" "Mon" "Morning")
                                 (appointments monday_morning) ∧
  ∃ row,
    appointments (store (create_appointment "z" (visit "Zed")) db1)
      = appointments db1 ++ [row] ∧
    AppointmentRow.id row = "z" ∧
    AppointmentRow.rank row = 3.
Proof.
  intros req db1.
  assert (ReorderRequest.ids req ≡ₚ
            AppointmentRow.id <$> filter (in_bucket "d1" "Mon" "Morning")
                                         (appointments monday_morning)) as Hperm.
  { change (["c"; "a"; "b"] ≡ₚ ["a"; "b"; "c"]).
    etrans; [apply Permutation_swap|]. apply Permutation_skip, Permutation_swap. }
  split; [exact Hperm|].
  apply (create_after_reorder_gets_the_length "z" (visit "Zed") req monday_morning).
  - discriminate.
  - exact Hperm.
  - apply NoDup_ListNoDup. repeat constructor; simpl; intuition discriminate.
  - rewrite appointments_monday_morning. intros r Hr.
    repeat (apply elem_of_cons in Hr as [->|Hr]; [discriminate|]).
    by apply elem_of_nil in Hr.
Defined.

Lemma doctors_two_doctors_reversed :
  doctors two_doctors_reversed =
  [registered_row "d2" 255 bob; registered_row "d1" 0 ann].
Proof. reflexivity. Qed.

(** X18 at the sample data: both practitioners by their joined ids, from
    a table that stores the second before the first; they come back in
    the order of their ids. *)
Lemma both_doctors_by_joined_ids :
  (∀ x, x ∈ ["d1"; "d2"] → ","%char ∉ chars x) ∧
  split "," (join "," ["d1"; "d2"]) = ["d1"; "d2"] ∧
  get_doctors_batch (join "," ["d1"; "d2"]) two_doctors_reversed =
    (Ok [registered_row "d1" 0 ann; registered_row "d2" 255 bob],
     two_doctors_reversed) ∧
  ∃ rows,
    get_doctors_batch (join "," ["d1"; "d2"]) two_doctors_reversed =
      (Ok rows, two_doctors_reversed) ∧
    rows ≡ₚ filter (λ r, DoctorRow.id r ∈ ["d1"; "d2"]) (doctors two_doctors_reversed).
Proof.
  assert (∀ x, x ∈ ["d1"; "d2"] → ","%char ∉ chars x) as Hclean.
  { intros x Hx Hc.
    repeat (apply elem_of_cons in Hx as [->|Hx];
            [unfold chars in Hc; simpl in Hc;
             repeat (apply elem_of_cons in Hc as [Hc|Hc]; [discriminate|]);
             by apply elem_of_nil in Hc|]).
    by apply elem_of_nil in Hx. }
  split; [exact Hclean|].
  destruct (batch_reads_select_the_joined_ids ["d1"; "d2"] two_doctors_reversed)
    as (Hsplit & (rows & Hbatch & Hperm & _) & _); [discriminate | exact Hclean |].
  split; [exact Hsplit|]. split; [reflexivity|].
  exists rows. split; [exact Hbatch | exact Hperm].
Defined.

(** X22 at the sample data. *)
Lemma pending_request_has_unique_keys :
  NoDup (DoctorRow.id <$> doctors pending_request) ∧
  NoDup (DoctorRow.student_id <$> doctors pending_request).
Proof.
  destruct (reachable_keys_are_unique pending_request reachable_pending_request)
    as (K1 & K2 & _).
  split; [exact K1 | exact K2].
Defined.

(** X23 at the sample data. *)
Lemma pending_request_links_bob_and_ann :
  MatchRequestRow.mk "q1" "d1" "ann" "s2" ∈ match_requests pending_request ∧
  ∃ target,
    DoctorRow.student_id target = "s2" ∧
    response (accept_match "q1") pending_request = Ok "Matched" ∧
    (DoctorRow.id target, "d1") ∈ matches (store (accept_match "q1") pending_request) ∧
    ("d1", DoctorRow.id target) ∈ matches (store (accept_match "q1") pending_request).
Proof.
  assert (MatchRequestRow.mk "q1" "d1" "ann" "s2" ∈ match_requests pending_request)
    as Hreq by (rewrite match_requests_pending_request; left).
  split; [exact Hreq|].
  destruct (reachable_requests_always_link pending_request _
              reachable_pending_request Hreq)
    as (target & _ & Hsid & _ & Hresp & H1 & H2 & _).
  exists target. split_and!; [exact Hsid | exact Hresp | exact H1 | exact H2].
Defined.

Lemma reachable_accepted : reachable (store (accept_match "q1") pending_request).
Proof. apply (reachable_step (AcceptMatch "q1")), reachable_pending_request. Qed.

(** X24 at the sample data: after the second practitioner has accepted. *)
Lemma bob_and_ann_are_not_linked_to_themselves :
  (("d1", "d1") ∉ matches (store (accept_match "q1") pending_request)) ∧
  (("d2", "d2") ∉ matches (store (accept_match "q1") pending_request)).
Proof.
  pose proof (proj1 (reachable_has_no_self_connection _ reachable_accepted)) as Hself.
  split; intros Hin; by apply (Hself _ _ Hin).
Defined.

Lemma reachable_monday_morning : reachable monday_morning.
Proof.
  apply (reachable_step (CreateAppointment "c" (visit "Cy"))).
  apply (reachable_step (CreateAppointment "b" (visit "Bea"))).
  apply (reachable_step (CreateAppointment "a" (visit "Al"))).
  apply reachable_init.
Qed.

(** X25 at the sample data. *)
Lemma monday_morning_ranks_are_not_negative :
  Forall (λ r, 0 ≤ AppointmentRow.rank r) (appointments monday_morning).
Proof.
  apply Forall_forall.
  exact (proj1 (reachable_stored_values monday_morning reachable_monday_morning)).
Defined.

(** X26 at the sample data: the first practitioner after a change of color
    and the deletion of a patient. *)
Lemma ann_keeps_her_credentials :
  registered_row "d1" 0 ann ∈ doctors two_doctors ∧
  ∃ doc ms,
    response (login (LoginRequest.mk "s1" "pw1"))
             (handle_all [UpdateColor "d1" "#112233"; DeletePatient "p1"] two_doctors)
    = Ok (doc, ms) ∧
    DoctorRow.student_id doc = "s1" ∧
    DoctorRow.password doc = "pw1".
Proof.
  assert (registered_row "d1" 0 ann ∈ doctors two_doctors) as Hann
    by (rewrite doctors_two_doctors; left).
  split; [exact Hann|].
  exact (proj2 (practitioners_and_credentials_persist
                  [UpdateColor "d1" "#112233"; DeletePatient "p1"] two_doctors _ Hann)).
Defined.
